(** * ComfyUI-MagnifyGlass: the magnifier's geometry, persistence and
      event handling (web/magnify_glass.js), embedded and verified.

    JavaScript numbers are embedded as [number]: exact rationals extended
    with NaN and the two infinities.  Arithmetic follows IEEE-754 on the
    special values (NaN propagation, division by zero, Infinity - Infinity)
    and is exact on finite values: the rounding of binary64, overflow and
    the sign of zero are not in [number].  The properties proved on
    [number] are therefore of two kinds: those that rest on the control
    flow, on comparisons and on NaN only, and those whose hypotheses keep
    every operation exact in binary64 (small integers, a host scale that
    is a power of two).
    Where rounding decides, the arithmetic of the source is evaluated on
    binary64 itself (primitive floats, the definitions ending in [64]). *)

From Stdlib Require Import QArith Qcanon Field Ascii String.
From Stdlib Require Import PrimFloat.
From stdpp Require Import base numbers strings gmap pretty.

Local Open Scope Qc_scope.

(* ================================================================== *)
(** ** JavaScript numbers *)

Inductive number : Type :=
  | NaN
  | Inf (negative : bool)
  | Fin (q : Qc).

Definition num (z : Z) : number := Fin (Qc_of_Z z).

Definition Qc_ltb (p q : Qc) : bool := bool_decide (p < q).
Definition Qc_eqb (p q : Qc) : bool := bool_decide (p = q).

(** The four operations below give, on finite operands, the exact
    result; JavaScript rounds that result to the nearest binary64 value.
    The two agree whenever the exact result is a binary64 value, as it is
    for sums, differences and products of integers that stay below 2^53,
    for a division whose quotient is such an integer, and for a
    multiplication or division by a power of two. *)

(** [a + b] *)
Definition nadd (a b : number) : number :=
  match a, b with
  | NaN, _ | _, NaN => NaN
  | Inf s, Inf t => if Bool.eqb s t then Inf s else NaN
  | Inf s, Fin _ => Inf s
  | Fin _, Inf t => Inf t
  | Fin p, Fin q => Fin (p + q)
  end.

(** unary minus *)
Definition nneg (a : number) : number :=
  match a with
  | NaN => NaN
  | Inf s => Inf (negb s)
  | Fin q => Fin (- q)
  end.

(** [a - b] *)
Definition nsub (a b : number) : number := nadd a (nneg b).

(** [a * b] *)
Definition nmul (a b : number) : number :=
  match a, b with
  | NaN, _ | _, NaN => NaN
  | Inf s, Inf t => Inf (xorb s t)
  | Inf s, Fin q | Fin q, Inf s =>
      if Qc_eqb q 0 then NaN else Inf (xorb s (Qc_ltb q 0))
  | Fin p, Fin q => Fin (p * q)
  end.

(** [a / b] *)
Definition ndiv (a b : number) : number :=
  match a, b with
  | NaN, _ | _, NaN => NaN
  | Inf _, Inf _ => NaN
  | Inf s, Fin q => Inf (xorb s (Qc_ltb q 0))
  | Fin _, Inf _ => Fin 0
  | Fin p, Fin q =>
      if Qc_eqb q 0
      then (if Qc_eqb p 0 then NaN else Inf (Qc_ltb p 0))
      else Fin (p / q)
  end.

(** [a === b] on numbers: NaN is not equal to itself. *)
Definition nstrict_eq (a b : number) : bool :=
  match a, b with
  | Inf s, Inf t => Bool.eqb s t
  | Fin p, Fin q => Qc_eqb p q
  | _, _ => false
  end.

(** [a < b]; every comparison with NaN is false. *)
Definition nlt (a b : number) : bool :=
  match a, b with
  | NaN, _ | _, NaN => false
  | Inf s, Inf t => s && negb t
  | Inf s, Fin _ => s
  | Fin _, Inf t => negb t
  | Fin p, Fin q => Qc_ltb p q
  end.

(** [a > b], [a <= b], [a >= b] *)
Definition ngt (a b : number) : bool := nlt b a.
Definition nle (a b : number) : bool := nlt a b || nstrict_eq a b.
Definition nge (a b : number) : bool := nle b a.

(** Truthiness of a number, as used by [||]: 0 and NaN are falsy. *)
Definition truthy (a : number) : bool :=
  match a with
  | NaN => false
  | Inf _ => true
  | Fin q => negb (Qc_eqb q 0)
  end.

(** [v || 0] where [v] may be [undefined] ([None]). *)
Definition orZero (v : option number) : number :=
  match v with
  | Some a => if truthy a then a else num 0
  | None => num 0
  end.

Definition is_finite (a : number) : bool :=
  match a with Fin _ => true | _ => false end.

(* ================================================================== *)
(** ** Configuration and interaction state *)

(** The fields of [ConfigManager] read by the geometry, the keyboard
    handlers and the persistence code.  [DEFAULT_SETTINGS] gives the
    initial values. *)
Record ConfigManager : Type := {
  zoomFactor : number;
  glassSize : number;
  activationKey : string;
  altRequired : bool;
  offsetStep : number;
  resetKey : string;
  resetAltRequired : bool;
  offsetX : number;
  offsetY : number
}.

(** [class MagnifierState] *)
Record MagnifierState : Type := {
  active : bool;
  x : number;
  y : number;
  sourceX : number;
  sourceY : number;
  sourceWidth : number;
  sourceHeight : number;
  canvasScale : number;
  canvasOffsetX : number;
  canvasOffsetY : number;
  isRenderScheduled : bool
}.

(** [new ConfigManager()] *)
Definition defaultConfig : ConfigManager := {|
  zoomFactor := num 3;
  glassSize := num 300;
  activationKey := "x";
  altRequired := true;
  offsetStep := num 5;
  resetKey := "r";
  resetAltRequired := true;
  offsetX := num 0;
  offsetY := num 0
|}.

(** [new MagnifierState()] *)
Definition initialState : MagnifierState := {|
  active := false;
  x := num 0;
  y := num 0;
  sourceX := num 0;
  sourceY := num 0;
  sourceWidth := num 0;
  sourceHeight := num 0;
  canvasScale := num 1;
  canvasOffsetX := num 0;
  canvasOffsetY := num 0;
  isRenderScheduled := false
|}.

Definition set_source (s : MagnifierState) (sx sy sw sh : number)
  : MagnifierState := {|
  active := active s;
  x := x s;
  y := y s;
  sourceX := sx;
  sourceY := sy;
  sourceWidth := sw;
  sourceHeight := sh;
  canvasScale := canvasScale s;
  canvasOffsetX := canvasOffsetX s;
  canvasOffsetY := canvasOffsetY s;
  isRenderScheduled := isRenderScheduled s
|}.

(* ================================================================== *)
(** ** Geometry *)

(** [MagnifyGlass.calculateSourceRegion]: reads the cursor and the host
    transform from the state and the glass size, zoom and manual offset
    from the configuration; writes the four [source*] fields. *)
Definition calculateSourceRegion (config : ConfigManager) (state : MagnifierState)
  : MagnifierState :=
  let cursorPixelX := x state in
  let cursorPixelY := y state in
  let canvasScale := canvasScale state in
  let canvasOffsetX := canvasOffsetX state in
  let canvasOffsetY := canvasOffsetY state in
  if nstrict_eq canvasScale (num 0) then state
  else
    let cursorGraphX := ndiv (nsub cursorPixelX canvasOffsetX) canvasScale in
    let cursorGraphY := ndiv (nsub cursorPixelY canvasOffsetY) canvasScale in
    let targetGraphCenterX := nadd cursorGraphX (offsetX config) in
    let targetGraphCenterY := nadd cursorGraphY (offsetY config) in
    let sourceGraphWidth :=
      ndiv (ndiv (glassSize config) (zoomFactor config)) canvasScale in
    let sourceGraphHeight :=
      ndiv (ndiv (glassSize config) (zoomFactor config)) canvasScale in
    let sourceGraphX := nsub targetGraphCenterX (ndiv sourceGraphWidth (num 2)) in
    let sourceGraphY := nsub targetGraphCenterY (ndiv sourceGraphHeight (num 2)) in
    set_source state
      (nadd (nmul sourceGraphX canvasScale) canvasOffsetX)
      (nadd (nmul sourceGraphY canvasScale) canvasOffsetY)
      (nmul sourceGraphWidth canvasScale)
      (nmul sourceGraphHeight canvasScale).

(** An axis-aligned rectangle [{x, y, width, height}]. *)
Record Rect : Type := {
  rx : number;
  ry : number;
  rwidth : number;
  rheight : number
}.

(** [MagnifyGlass.rectsOverlap] *)
Definition rectsOverlap (rect1 rect2 : Rect) : bool :=
  nlt (rx rect1) (nadd (rx rect2) (rwidth rect2)) &&
  ngt (nadd (rx rect1) (rwidth rect1)) (rx rect2) &&
  nlt (ry rect1) (nadd (ry rect2) (rheight rect2)) &&
  ngt (nadd (ry rect1) (rheight rect1)) (ry rect2).

(** The sample rectangle held in the state ([magnifyRect] in
    [renderHtmlOverlays]). *)
Definition sampleRect (s : MagnifierState) : Rect := {|
  rx := sourceX s;
  ry := sourceY s;
  rwidth := sourceWidth s;
  rheight := sourceHeight s
|}.

(* ================================================================== *)
(** ** Strings: [toLowerCase], [parseInt], [Number.prototype.toString] *)

(** [String.prototype.toLowerCase] on the ASCII letters. *)
Definition lowerAscii (c : ascii) : ascii :=
  let n := N_of_ascii c in
  if ((65 <=? n) && (n <=? 90))%N then ascii_of_N (n + 32) else c.

Fixpoint toLowerCase (s : string) : string :=
  match s with
  | EmptyString => EmptyString
  | String c r => String (lowerAscii c) (toLowerCase r)
  end.

(** White space skipped by [parseInt]: TAB, LF, VT, FF, CR and SPACE. *)
Definition isWhiteSpace (c : ascii) : bool :=
  let n := N_of_ascii c in
  ((9 <=? n) && (n <=? 13) || (n =? 32))%N.

Fixpoint trimStart (s : string) : string :=
  match s with
  | String c r => if isWhiteSpace c then trimStart r else s
  | EmptyString => EmptyString
  end.

Definition digitValue (c : ascii) : option Z :=
  let n := N_of_ascii c in
  if ((48 <=? n) && (n <=? 57))%N then Some (Z.of_N (n - 48)) else None.

(** The value of the longest prefix of decimal digits; [acc] is [None]
    until a first digit has been read. *)
Fixpoint parseDigits (s : string) (acc : option Z) : option Z :=
  match s with
  | EmptyString => acc
  | String c r =>
      match digitValue c with
      | Some d => parseDigits r (Some (10 * default 0%Z acc + d)%Z)
      | None => acc
      end
  end.

(** [parseInt(s, 10)]: leading white space, an optional sign, then the
    longest run of decimal digits; NaN when there is no digit. *)
Definition parseInt (s : string) : number :=
  let t := trimStart s in
  let '(negative, body) :=
    match t with
    | String "-" r => (true, r)
    | String "+" r => (false, r)
    | _ => (false, t)
    end in
  match parseDigits body None with
  | Some z => num (if negative then - z else z)
  | None => NaN
  end.



(** A call that either returns or throws. *)
Inductive result (A : Type) : Type :=
  | Ok (a : A)
  | Throw.
Arguments Ok {A} a.
Arguments Throw {A}.

Section Magnifier.

(** [Number.prototype.toString] on a finite number that is not a safe
    integer (a fraction, or an integer beyond 2^53 - 1, which the builtin
    prints with its shortest round-trip digits and, from 1e21, in exponent
    form) is a builtin of the host; it is taken as a parameter. *)
Variable fractionToString : Qc -> string.

(** [n.toString()]: a safe integer is printed in decimal. *)
Definition toString (n : number) : string :=
  match n with
  | NaN => "NaN"
  | Inf false => "Infinity"
  | Inf true => "-Infinity"
  | Fin q =>
      if Pos.eqb (Qden (this q)) 1 &&
         (Z.abs (Qnum (this q)) <=? 9007199254740991)%Z
      then pretty (Qnum (this q))
      else fractionToString q
  end.

(* ================================================================== *)
(** ** Persistence: [localStorage] *)

(** The browser's key-value store.  [getItemThrows k] and
    [setItemThrows k] tell whether a read or a write of key [k] throws
    (storage disabled, quota exceeded). *)
Record Storage : Type := {
  items : gmap string string;
  getItemThrows : string -> bool;
  setItemThrows : string -> bool
}.

(** [localStorage.getItem(k)]; [None] is [null]. *)
Definition getItem (st : Storage) (k : string) : result (option string) :=
  if getItemThrows st k then Throw else Ok (items st !! k).

(** [localStorage.setItem(k, v)] *)
Definition setItem (st : Storage) (k v : string) : result Storage :=
  if setItemThrows st k then Throw
  else Ok {| items := <[k := v]> (items st);
             getItemThrows := getItemThrows st;
             setItemThrows := setItemThrows st |}.

Definition offsetXKey : string := "comfyui_magnify_offset_x".
Definition offsetYKey : string := "comfyui_magnify_offset_y".

Definition set_offsets (c : ConfigManager) (ox oy : number) : ConfigManager := {|
  zoomFactor := zoomFactor c;
  glassSize := glassSize c;
  activationKey := activationKey c;
  altRequired := altRequired c;
  offsetStep := offsetStep c;
  resetKey := resetKey c;
  resetAltRequired := resetAltRequired c;
  offsetX := ox;
  offsetY := oy
|}.

(** [ConfigManager.loadSavedOffsets]: both reads come first; a throw in
    either one reaches the [catch], which resets both offsets. *)
Definition loadSavedOffsets (c : ConfigManager) (st : Storage) : ConfigManager :=
  match getItem st offsetXKey with
  | Throw => set_offsets c (num 0) (num 0)
  | Ok savedOffsetX =>
      match getItem st offsetYKey with
      | Throw => set_offsets c (num 0) (num 0)
      | Ok savedOffsetY =>
          let ox := match savedOffsetX with
                    | Some v => parseInt v
                    | None => num 0
                    end in
          let oy := match savedOffsetY with
                    | Some v => parseInt v
                    | None => num 0
                    end in
          set_offsets c ox oy
      end
  end.

(** [ConfigManager.saveOffsets]: a throwing write is logged and ignored;
    a write made before the throw stays. *)
Definition saveOffsets (c : ConfigManager) (st : Storage) : Storage :=
  match setItem st offsetXKey (toString (offsetX c)) with
  | Throw => st
  | Ok st1 =>
      match setItem st1 offsetYKey (toString (offsetY c)) with
      | Throw => st1
      | Ok st2 => st2
      end
  end.

(* ================================================================== *)
(** ** The host, the overlay and the magnifier object *)

(** A [DOMRect] as returned by [getBoundingClientRect]. *)
Record DOMRect : Type := {
  rect_left : number;
  rect_top : number;
  rect_width : number;
  rect_height : number
}.

Definition rect_right (r : DOMRect) : number := nadd (rect_left r) (rect_width r).
Definition rect_bottom (r : DOMRect) : number := nadd (rect_top r) (rect_height r).

(** [app.canvas.ds]: [ds_scale] is [Some] when [typeof ds.scale] is
    ['number']; [ds_offset] is [Some] when [ds.offset] is present, its two
    entries possibly [undefined]. *)
Record DragAndScale : Type := {
  ds_scale : option number;
  ds_offset : option (option number * option number)
}.

Inductive ElementKind : Type := TextElement | VideoElement | ImageElement.

(** A widget element that [renderHtmlOverlays] would process, with its
    bounding client rectangle. *)
Record Candidate : Type := {
  kind : ElementKind;
  boundingClientRect : DOMRect
}.

(** What the handlers read from the host application when they run. *)
Record Host : Type := {
  ds : option DragAndScale;
  canvasRect : DOMRect;
  canvasWidth : number;
  canvasHeight : number;
  graphWidgets : option (list Candidate);
  texImage2DThrows : bool
}.

(** A positioned clone in the HTML overlay container. *)
Record Clone : Type := {
  cloneKind : ElementKind;
  cloneLeft : number;
  cloneTop : number;
  cloneWidth : number;
  cloneHeight : number;
  cloneScale : number
}.

Inductive Display : Type := DisplayNone | DisplayBlock.

(** [UiManager]: [glassDiv.style.display], the children of
    [htmlOverlayContainer], and the arguments of the calls made to
    [positionGlass] (which only writes [glassDiv.style.left/top]). *)
Record UiManager : Type := {
  glassDisplay : Display;
  htmlOverlayContainer : list Clone;
  positionGlassCalls : list (number * number)
}.

(** The uniforms of one draw: [u_textureOffset] and [u_textureRepeat]. *)
Record DrawCall : Type := {
  uvX : number;
  uvY : number;
  uvWidth : number;
  uvHeight : number
}.

(** [class MagnifyGlass] together with what it acts on: the store, the
    callbacks waiting in [requestAnimationFrame], and the calls made to
    [renderer.render] ([None] for a call whose texture upload threw). *)
Record MagnifyGlass : Type := {
  config : ConfigManager;
  state : MagnifierState;
  ui : UiManager;
  renderer : bool;
  litegraphCanvas : bool;
  lastKnownMousePosition : number * number;
  localStorage : Storage;
  animationFrameRequests : nat;
  renderCalls : list (option DrawCall)
}.

Definition set_config (m : MagnifyGlass) (c : ConfigManager) : MagnifyGlass := {|
  config := c; state := state m; ui := ui m; renderer := renderer m;
  litegraphCanvas := litegraphCanvas m;
  lastKnownMousePosition := lastKnownMousePosition m;
  localStorage := localStorage m;
  animationFrameRequests := animationFrameRequests m;
  renderCalls := renderCalls m
|}.

Definition set_state (m : MagnifyGlass) (s : MagnifierState) : MagnifyGlass := {|
  config := config m; state := s; ui := ui m; renderer := renderer m;
  litegraphCanvas := litegraphCanvas m;
  lastKnownMousePosition := lastKnownMousePosition m;
  localStorage := localStorage m;
  animationFrameRequests := animationFrameRequests m;
  renderCalls := renderCalls m
|}.

Definition set_ui (m : MagnifyGlass) (u : UiManager) : MagnifyGlass := {|
  config := config m; state := state m; ui := u; renderer := renderer m;
  litegraphCanvas := litegraphCanvas m;
  lastKnownMousePosition := lastKnownMousePosition m;
  localStorage := localStorage m;
  animationFrameRequests := animationFrameRequests m;
  renderCalls := renderCalls m
|}.

Definition set_lastKnownMousePosition (m : MagnifyGlass) (p : number * number)
  : MagnifyGlass := {|
  config := config m; state := state m; ui := ui m; renderer := renderer m;
  litegraphCanvas := litegraphCanvas m;
  lastKnownMousePosition := p;
  localStorage := localStorage m;
  animationFrameRequests := animationFrameRequests m;
  renderCalls := renderCalls m
|}.

Definition set_localStorage (m : MagnifyGlass) (st : Storage) : MagnifyGlass := {|
  config := config m; state := state m; ui := ui m; renderer := renderer m;
  litegraphCanvas := litegraphCanvas m;
  lastKnownMousePosition := lastKnownMousePosition m;
  localStorage := st;
  animationFrameRequests := animationFrameRequests m;
  renderCalls := renderCalls m
|}.

Definition set_animationFrameRequests (m : MagnifyGlass) (n : nat) : MagnifyGlass := {|
  config := config m; state := state m; ui := ui m; renderer := renderer m;
  litegraphCanvas := litegraphCanvas m;
  lastKnownMousePosition := lastKnownMousePosition m;
  localStorage := localStorage m;
  animationFrameRequests := n;
  renderCalls := renderCalls m
|}.

Definition set_renderCalls (m : MagnifyGlass) (l : list (option DrawCall))
  : MagnifyGlass := {|
  config := config m; state := state m; ui := ui m; renderer := renderer m;
  litegraphCanvas := litegraphCanvas m;
  lastKnownMousePosition := lastKnownMousePosition m;
  localStorage := localStorage m;
  animationFrameRequests := animationFrameRequests m;
  renderCalls := l
|}.

Definition set_active (s : MagnifierState) (b : bool) : MagnifierState := {|
  active := b; x := x s; y := y s;
  sourceX := sourceX s; sourceY := sourceY s;
  sourceWidth := sourceWidth s; sourceHeight := sourceHeight s;
  canvasScale := canvasScale s;
  canvasOffsetX := canvasOffsetX s; canvasOffsetY := canvasOffsetY s;
  isRenderScheduled := isRenderScheduled s
|}.

Definition set_cursor (s : MagnifierState) (px py : number) : MagnifierState := {|
  active := active s; x := px; y := py;
  sourceX := sourceX s; sourceY := sourceY s;
  sourceWidth := sourceWidth s; sourceHeight := sourceHeight s;
  canvasScale := canvasScale s;
  canvasOffsetX := canvasOffsetX s; canvasOffsetY := canvasOffsetY s;
  isRenderScheduled := isRenderScheduled s
|}.

Definition set_transform (s : MagnifierState) (sc ox oy : number) : MagnifierState := {|
  active := active s; x := x s; y := y s;
  sourceX := sourceX s; sourceY := sourceY s;
  sourceWidth := sourceWidth s; sourceHeight := sourceHeight s;
  canvasScale := sc;
  canvasOffsetX := ox; canvasOffsetY := oy;
  isRenderScheduled := isRenderScheduled s
|}.

Definition set_isRenderScheduled (s : MagnifierState) (b : bool) : MagnifierState := {|
  active := active s; x := x s; y := y s;
  sourceX := sourceX s; sourceY := sourceY s;
  sourceWidth := sourceWidth s; sourceHeight := sourceHeight s;
  canvasScale := canvasScale s;
  canvasOffsetX := canvasOffsetX s; canvasOffsetY := canvasOffsetY s;
  isRenderScheduled := b
|}.

Definition set_glassDisplay (u : UiManager) (d : Display) : UiManager := {|
  glassDisplay := d;
  htmlOverlayContainer := htmlOverlayContainer u;
  positionGlassCalls := positionGlassCalls u
|}.

Definition set_htmlOverlayContainer (u : UiManager) (l : list Clone) : UiManager := {|
  glassDisplay := glassDisplay u;
  htmlOverlayContainer := l;
  positionGlassCalls := positionGlassCalls u
|}.

(** [UiManager.positionGlass(clientX, clientY)], recorded by its arguments. *)
Definition positionGlass (u : UiManager) (clientX clientY : number) : UiManager := {|
  glassDisplay := glassDisplay u;
  htmlOverlayContainer := htmlOverlayContainer u;
  positionGlassCalls := positionGlassCalls u ++ [(clientX, clientY)]
|}.

(** [UiManager.show] *)
Definition show (u : UiManager) : UiManager := set_glassDisplay u DisplayBlock.

(** [UiManager.hide]: also empties the HTML overlay container. *)
Definition hide (u : UiManager) : UiManager :=
  set_htmlOverlayContainer (set_glassDisplay u DisplayNone) [].

(* ================================================================== *)
(** ** Rendering and scheduling *)

(** [MagnifyGlass.updateCanvasTransformation] *)
Definition updateCanvasTransformation (host : Host) (s : MagnifierState)
  : MagnifierState :=
  let s0 := set_transform s (num 1) (num 0) (num 0) in
  match ds host with
  | Some d =>
      let s1 := match ds_scale d with
                | Some sc => set_transform s0 sc (canvasOffsetX s0) (canvasOffsetY s0)
                | None => s0
                end in
      match ds_offset d with
      | Some (o0, o1) => set_transform s1 (canvasScale s1) (orZero o0) (orZero o1)
      | None => s1
      end
  | None => s0
  end.

(** The guard shared by [updateMagnifiedView] and the frame callback:
    [!this.state.active || !this.renderer || !this.litegraphCanvas]. *)
Definition notReady (m : MagnifyGlass) : bool :=
  negb (active (state m)) || negb (renderer m) || negb (litegraphCanvas m).

(** [MagnifyGlass.updateMagnifiedView]: a render request. *)
Definition updateMagnifiedView (host : Host) (m : MagnifyGlass) : MagnifyGlass :=
  if notReady m then m
  else
    let m1 := set_state m (updateCanvasTransformation host (state m)) in
    let m2 := set_state m1 (calculateSourceRegion (config m1) (state m1)) in
    if negb (isRenderScheduled (state m2)) then
      set_animationFrameRequests
        (set_state m2 (set_isRenderScheduled (state m2) true))
        (S (animationFrameRequests m2))
    else m2.

(** [WebGLRenderer.render(sourceCanvas)]: the call is recorded; when the
    texture upload throws the frame is skipped. *)
Definition render (host : Host) (m : MagnifyGlass) : MagnifyGlass :=
  let call :=
    if texImage2DThrows host then None
    else Some {| uvX := ndiv (sourceX (state m)) (canvasWidth host);
                 uvY := ndiv (sourceY (state m)) (canvasHeight host);
                 uvWidth := ndiv (sourceWidth (state m)) (canvasWidth host);
                 uvHeight := ndiv (sourceHeight (state m)) (canvasHeight host) |} in
  set_renderCalls m (renderCalls m ++ [call]).

(** The rectangle of a widget element in canvas pixels
    ([widgetSourceRect]). *)
Definition widgetSourceRect (host : Host) (widgetRect : DOMRect) : Rect :=
  let canvasRect := canvasRect host in
  let canvasToViewportScaleX :=
    if ngt (rect_width canvasRect) (num 0)
    then ndiv (canvasWidth host) (rect_width canvasRect) else num 1 in
  let canvasToViewportScaleY :=
    if ngt (rect_height canvasRect) (num 0)
    then ndiv (canvasHeight host) (rect_height canvasRect) else num 1 in
  {| rx := nmul (nsub (rect_left widgetRect) (rect_left canvasRect)) canvasToViewportScaleX;
     ry := nmul (nsub (rect_top widgetRect) (rect_top canvasRect)) canvasToViewportScaleY;
     rwidth := nmul (rect_width widgetRect) canvasToViewportScaleX;
     rheight := nmul (rect_height widgetRect) canvasToViewportScaleY |}.

(** The clone appended for an overlapping widget. *)
Definition cloneOf (c : ConfigManager) (magnifyRect : Rect) (k : ElementKind)
    (w : Rect) : Clone :=
  let relativeX := nsub (rx w) (rx magnifyRect) in
  let relativeY := nsub (ry w) (ry magnifyRect) in
  {| cloneKind := k;
     cloneLeft := nmul relativeX (zoomFactor c);
     cloneTop := nmul relativeY (zoomFactor c);
     cloneWidth := rwidth w;
     cloneHeight := rheight w;
     cloneScale := zoomFactor c |}.

(** The loop of [renderHtmlOverlays] over the candidate elements. *)
Fixpoint overlayClones (host : Host) (c : ConfigManager) (magnifyRect : Rect)
    (widgets : list Candidate) : list Clone :=
  match widgets with
  | [] => []
  | w :: rest =>
      let r := widgetSourceRect host (boundingClientRect w) in
      if rectsOverlap magnifyRect r
      then cloneOf c magnifyRect (kind w) r :: overlayClones host c magnifyRect rest
      else overlayClones host c magnifyRect rest
  end.

(** [MagnifyGlass.renderHtmlOverlays]: the container is emptied, then
    refilled when the magnifier is active and the graph is available. *)
Definition renderHtmlOverlays (host : Host) (m : MagnifyGlass) : MagnifyGlass :=
  match graphWidgets host with
  | Some widgets =>
      if negb (active (state m)) || negb (litegraphCanvas m)
      then set_ui m (set_htmlOverlayContainer (ui m) [])
      else set_ui m (set_htmlOverlayContainer (ui m)
                       (overlayClones host (config m) (sampleRect (state m)) widgets))
  | None => set_ui m (set_htmlOverlayContainer (ui m) [])
  end.

(** The callback passed to [requestAnimationFrame]. *)
Definition animationFrameCallback (host : Host) (m : MagnifyGlass) : MagnifyGlass :=
  if notReady m then set_state m (set_isRenderScheduled (state m) false)
  else
    let m1 := render host m in
    let m2 := renderHtmlOverlays host m1 in
    set_state m2 (set_isRenderScheduled (state m2) false).

(** One frame tick of the host: every waiting callback runs once. *)
Definition animationFrame (host : Host) (m : MagnifyGlass) : MagnifyGlass :=
  Nat.iter (animationFrameRequests m) (animationFrameCallback host)
    (set_animationFrameRequests m 0).

(** [MagnifyGlass.resetOffsets] *)
Definition resetOffsets (host : Host) (m : MagnifyGlass) : MagnifyGlass :=
  let c := set_offsets (config m) (num 0) (num 0) in
  let m1 := set_localStorage (set_config m c) (saveOffsets c (localStorage m)) in
  if active (state m1) then updateMagnifiedView host m1 else m1.

(* ================================================================== *)
(** ** Event handling *)

Record KeyboardEvent : Type := {
  key : string;
  altKey : bool;
  shiftKey : bool
}.

Record MouseEvent : Type := {
  clientX : number;
  clientY : number
}.

(** The cursor in canvas pixels, from its position on the canvas in CSS
    pixels. *)
Definition toCanvasPixels (host : Host) (cssMouseXOnCanvas cssMouseYOnCanvas : number)
  : number * number :=
  let rect := canvasRect host in
  let scaleX := if ngt (rect_width rect) (num 0)
                then ndiv (canvasWidth host) (rect_width rect) else num 1 in
  let scaleY := if ngt (rect_height rect) (num 0)
                then ndiv (canvasHeight host) (rect_height rect) else num 1 in
  (nmul cssMouseXOnCanvas scaleX, nmul cssMouseYOnCanvas scaleY).

(** [EventHandler.updateInitialPosition] *)
Definition updateInitialPosition (host : Host) (m : MagnifyGlass) : MagnifyGlass :=
  if negb (litegraphCanvas m) then m
  else
    let rect := canvasRect host in
    let clientX := fst (lastKnownMousePosition m) in
    let clientY := snd (lastKnownMousePosition m) in
    if nge clientX (rect_left rect) && nle clientX (rect_right rect) &&
       nge clientY (rect_top rect) && nle clientY (rect_bottom rect)
    then
      let cssMouseXOnCanvas := nsub clientX (rect_left rect) in
      let cssMouseYOnCanvas := nsub clientY (rect_top rect) in
      let '(pixelX, pixelY) := toCanvasPixels host cssMouseXOnCanvas cssMouseYOnCanvas in
      let m1 := set_state m (set_cursor (state m) pixelX pixelY) in
      let m2 := set_ui m1 (positionGlass (ui m1) clientX clientY) in
      updateMagnifiedView host m2
    else m.

(** The activation part of [EventHandler.handleKeyDown]. *)
Definition activate (host : Host) (e : KeyboardEvent) (m : MagnifyGlass)
  : MagnifyGlass :=
  if String.eqb (toLowerCase (key e)) (activationKey (config m)) &&
     (negb (altRequired (config m)) || altKey e)
  then
    if negb (active (state m)) then
      let m1 := set_state m (set_active (state m) true) in
      let m2 := set_ui m1 (show (ui m1)) in
      updateInitialPosition host m2
    else m
  else m.

(** The offset keys of [EventHandler.handleKeyDown]: the new
    configuration, when the key changes the offsets. *)
Definition adjustOffsets (e : KeyboardEvent) (c : ConfigManager)
  : option ConfigManager :=
  let stepSize := if shiftKey e then nmul (offsetStep c) (num 5) else offsetStep c in
  if String.eqb (key e) "ArrowUp" then
    Some (set_offsets c (offsetX c) (nsub (offsetY c) stepSize))
  else if String.eqb (key e) "ArrowDown" then
    Some (set_offsets c (offsetX c) (nadd (offsetY c) stepSize))
  else if String.eqb (key e) "ArrowLeft" then
    Some (set_offsets c (nsub (offsetX c) stepSize) (offsetY c))
  else if String.eqb (key e) "ArrowRight" then
    Some (set_offsets c (nadd (offsetX c) stepSize) (offsetY c))
  else if String.eqb (toLowerCase (key e)) (toLowerCase (resetKey c)) &&
          (negb (resetAltRequired c) || altKey e) then
    Some (set_offsets c (num 0) (num 0))
  else None.

(** [EventHandler.handleKeyDown] *)
Definition handleKeyDown (host : Host) (e : KeyboardEvent) (m : MagnifyGlass)
  : MagnifyGlass :=
  let m1 := activate host e m in
  if active (state m1) then
    match adjustOffsets e (config m1) with
    | Some c =>
        let m2 := set_config m1 c in
        let m3 := set_localStorage m2 (saveOffsets c (localStorage m2)) in
        updateMagnifiedView host m3
    | None => m1
    end
  else m1.

(** [EventHandler.handleKeyUp] *)
Definition handleKeyUp (e : KeyboardEvent) (m : MagnifyGlass) : MagnifyGlass :=
  let c := config m in
  if String.eqb (toLowerCase (key e)) (activationKey c) ||
     (altRequired c && String.eqb (key e) "Alt")
  then
    let shouldDeactivate :=
      if altRequired c
      then String.eqb (key e) "Alt" ||
           String.eqb (toLowerCase (key e)) (activationKey c)
      else String.eqb (toLowerCase (key e)) (activationKey c) in
    if active (state m) && shouldDeactivate
    then set_ui (set_state m (set_active (state m) false)) (hide (ui m))
    else m
  else m.

(** [EventHandler.handleMouseMove] *)
Definition handleMouseMove (host : Host) (e : MouseEvent) (m : MagnifyGlass)
  : MagnifyGlass :=
  let m0 := set_lastKnownMousePosition m (clientX e, clientY e) in
  if negb (active (state m0)) || negb (litegraphCanvas m0) then m0
  else
    let rect := canvasRect host in
    let cssMouseXOnCanvas := nsub (clientX e) (rect_left rect) in
    let cssMouseYOnCanvas := nsub (clientY e) (rect_top rect) in
    if nge cssMouseXOnCanvas (num 0) && nle cssMouseXOnCanvas (rect_width rect) &&
       nge cssMouseYOnCanvas (num 0) && nle cssMouseYOnCanvas (rect_height rect)
    then
      let '(pixelX, pixelY) := toCanvasPixels host cssMouseXOnCanvas cssMouseYOnCanvas in
      let m1 := set_state m0 (set_cursor (state m0) pixelX pixelY) in
      let m2 := set_ui m1 (positionGlass (ui m1) (clientX e) (clientY e)) in
      updateMagnifiedView host m2
    else m0.

(** The events of the controller, each with the host as it is when the
    event is handled. *)
Inductive Event : Type :=
  | KeyDown (host : Host) (e : KeyboardEvent)
  | KeyUp (e : KeyboardEvent)
  | MouseMove (host : Host) (e : MouseEvent)
  | AnimationFrame (host : Host).

Definition step (m : MagnifyGlass) (ev : Event) : MagnifyGlass :=
  match ev with
  | KeyDown host e => handleKeyDown host e m
  | KeyUp e => handleKeyUp e m
  | MouseMove host e => handleMouseMove host e m
  | AnimationFrame host => animationFrame host m
  end.

Definition run (m : MagnifyGlass) (evs : list Event) : MagnifyGlass :=
  fold_left step evs m.

(** The magnifier once [init] has attached the listeners: the settings
    and the saved offsets are loaded, the elements are created (the glass
    is not displayed), the renderer and the canvas are present. *)
Definition initialMagnifyGlass (c : ConfigManager) (st : Storage) : MagnifyGlass := {|
  config := loadSavedOffsets c st;
  state := initialState;
  ui := {| glassDisplay := DisplayNone;
           htmlOverlayContainer := [];
           positionGlassCalls := [] |};
  renderer := true;
  litegraphCanvas := true;
  lastKnownMousePosition := (num 0, num 0);
  localStorage := st;
  animationFrameRequests := 0;
  renderCalls := []
|}.

End Magnifier.

(* ================================================================== *)
(** ** Derived notions used to state the properties *)



(** The inputs of [calculateSourceRegion] are all finite numbers. *)
Definition finiteInputs (c : ConfigManager) (s : MagnifierState) : bool :=
  is_finite (x s) && is_finite (y s) && is_finite (canvasScale s) &&
  is_finite (canvasOffsetX s) && is_finite (canvasOffsetY s) &&
  is_finite (offsetX c) && is_finite (offsetY c) &&
  is_finite (glassSize c) && is_finite (zoomFactor c).

(** Two rectangles touch along an edge: one side of [a] lies exactly on
    the opposite side of [b]. *)
Definition touching (a b : Rect) : Prop :=
  nadd (rx a) (rwidth a) = rx b \/
  nadd (rx b) (rwidth b) = rx a \/
  nadd (ry a) (rheight a) = ry b \/
  nadd (ry b) (rheight b) = ry a.

(** The state of the first two scenarios: host scale 1, host offset
    (0,0), cursor at (100,100). *)
Definition scenarioState : MagnifierState :=
  set_cursor initialState (num 100) (num 100).

Definition set_zoomFactor (c : ConfigManager) (z : number) : ConfigManager := {|
  zoomFactor := z;
  glassSize := glassSize c;
  activationKey := activationKey c;
  altRequired := altRequired c;
  offsetStep := offsetStep c;
  resetKey := resetKey c;
  resetAltRequired := resetAltRequired c;
  offsetX := offsetX c;
  offsetY := offsetY c
|}.

(** A store holding the given entries in which no call throws. *)
Definition storeOf (l : list (string * string)) : Storage := {|
  items := list_to_map l;
  getItemThrows := fun _ => false;
  setItemThrows := fun _ => false
|}.


(** The store accepts a write of each of the two offset keys. *)
Definition writable (st : Storage) : bool :=
  negb (setItemThrows st offsetXKey) && negb (setItemThrows st offsetYKey).

(** What the store holds under the two offset keys. *)
Definition persistedOffsets (m : MagnifyGlass) : option string * option string :=
  (items (localStorage m) !! offsetXKey, items (localStorage m) !! offsetYKey).

(** The manual offset of the configuration. *)
Definition manualOffset (m : MagnifyGlass) : number * number :=
  (offsetX (config m), offsetY (config m)).

Definition isArrowKey (k : string) : bool :=
  String.eqb k "ArrowUp" || String.eqb k "ArrowDown" ||
  String.eqb k "ArrowLeft" || String.eqb k "ArrowRight".

(** The key press is the reset key with its required modifier (and is
    not one of the arrow keys, which [handleKeyDown] tests first). *)
Definition isResetPress (c : ConfigManager) (e : KeyboardEvent) : bool :=
  negb (isArrowKey (key e)) &&
  String.eqb (toLowerCase (key e)) (toLowerCase (resetKey c)) &&
  (negb (resetAltRequired c) || altKey e).


(** The overlay is displayed exactly when the magnifier is active, and
    holds no clone when it is inactive. *)
Definition overlayInvariant (m : MagnifyGlass) : Prop :=
  (glassDisplay (ui m) = DisplayBlock <-> active (state m) = true) /\
  (active (state m) = false -> htmlOverlayContainer (ui m) = []).

(** One callback waits for the next frame exactly when the pending flag
    is set. *)
Definition schedulingInvariant (m : MagnifyGlass) : Prop :=
  animationFrameRequests m = if isRenderScheduled (state m) then 1%nat else 0%nat.

Definition isAnimationFrame (ev : Event) : bool :=
  match ev with
  | AnimationFrame _ => true
  | _ => false
  end.

(** The pointer lies outside the client rectangle of the canvas. *)
Definition outsideClientBounds (rect : DOMRect) (e : MouseEvent) : bool :=
  nlt (clientX e) (rect_left rect) || ngt (clientX e) (rect_right rect) ||
  nlt (clientY e) (rect_top rect) || ngt (clientY e) (rect_bottom rect).

Definition finitePointer (rect : DOMRect) (e : MouseEvent) : bool :=
  is_finite (clientX e) && is_finite (clientY e) &&
  is_finite (rect_left rect) && is_finite (rect_top rect) &&
  is_finite (rect_width rect) && is_finite (rect_height rect).

(** A host with scale 1, no pan, a 800x600 canvas at the origin of the
    viewport and no widget. *)
Definition plainHost : Host := {|
  ds := Some {| ds_scale := Some (num 1);
                ds_offset := Some (Some (num 0), Some (num 0)) |};
  canvasRect := {| rect_left := num 0; rect_top := num 0;
                   rect_width := num 800; rect_height := num 600 |};
  canvasWidth := num 800;
  canvasHeight := num 600;
  graphWidgets := Some [];
  texImage2DThrows := false
|}.

(** The state after the two recomputations of a render request. *)
Definition recomputed (host : Host) (m : MagnifyGlass) : MagnifierState :=
  calculateSourceRegion (config m) (updateCanvasTransformation host (state m)).

(** A handler that keeps the two invariants and makes no call to
    [render]. *)
Definition handlerPreserves (f : MagnifyGlass -> MagnifyGlass) : Prop :=
  forall m,
    (schedulingInvariant m -> schedulingInvariant (f m)) /\
    (overlayInvariant m -> overlayInvariant (f m)) /\
    renderCalls (f m) = renderCalls m.

(** What one reset leaves behind. *)
Definition resetDone (m m' : MagnifyGlass) : Prop :=
  manualOffset m' = (num 0, num 0) /\
  persistedOffsets m' = (Some "0", Some "0") /\
  writable (localStorage m') = true /\
  active (state m') = active (state m) /\
  resetKey (config m') = resetKey (config m) /\
  resetAltRequired (config m') = resetAltRequired (config m).

(** Scenario data: the default configuration over an empty store, the
    magnifier switched on with Alt+X, and a few events. *)
Definition noFraction : Qc -> string := fun _ => "".

Definition altX : KeyboardEvent :=
  {| key := "x"; altKey := true; shiftKey := false |}.

Definition altR : KeyboardEvent :=
  {| key := "r"; altKey := true; shiftKey := false |}.

Definition shiftArrowUp : KeyboardEvent :=
  {| key := "ArrowUp"; altKey := false; shiftKey := true |}.

Definition pointerAt (px py : Z) : MouseEvent :=
  {| clientX := num px; clientY := num py |}.

Definition startUp : MagnifyGlass := initialMagnifyGlass defaultConfig (storeOf []).

Definition switchedOn : MagnifyGlass :=
  run noFraction startUp [KeyDown plainHost altX].

Definition twoPointerMoves : list Event :=
  [MouseMove plainHost (pointerAt 100 100); MouseMove plainHost (pointerAt 120 90)].

(* ================================================================== *)
(** ** More of the renderer and of the UI manager *)

(** The uniforms [render] computes from the state and the source canvas. *)
Definition drawCallOf (host : Host) (s : MagnifierState) : DrawCall := {|
  uvX := ndiv (sourceX s) (canvasWidth host);
  uvY := ndiv (sourceY s) (canvasHeight host);
  uvWidth := ndiv (sourceWidth s) (canvasWidth host);
  uvHeight := ndiv (sourceHeight s) (canvasHeight host)
|}.

(** The "Alignment Offset" shown by [DebugManager.drawCanvasVisualization]. *)
Definition alignmentOffsetX (s : MagnifierState) : number :=
  nadd (nsub (sourceX s) (x s)) (ndiv (sourceWidth s) (num 2)).
Definition alignmentOffsetY (s : MagnifierState) : number :=
  nadd (nsub (sourceY s) (y s)) (ndiv (sourceHeight s) (num 2)).

(** The [switch] of [UiManager.positionGlass]: where the top-left corner
    of the glass is put for a cursor at (clientX, clientY), before
    [adjustForBoundaries]. *)
Definition glassPlacement (glassSize : number) (glassPosition : string)
    (clientX clientY : number) : number * number :=
  let offsetAmount := num 20 in
  if String.eqb glassPosition "Top" then
    (nsub clientX (ndiv glassSize (num 2)), nsub (nsub clientY glassSize) offsetAmount)
  else if String.eqb glassPosition "Bottom" then
    (nsub clientX (ndiv glassSize (num 2)), nadd clientY offsetAmount)
  else if String.eqb glassPosition "Left" then
    (nsub (nsub clientX glassSize) offsetAmount, nsub clientY (ndiv glassSize (num 2)))
  else if String.eqb glassPosition "Right" then
    (nadd clientX offsetAmount, nsub clientY (ndiv glassSize (num 2)))
  else if String.eqb glassPosition "Top-Left" then
    (nsub (nsub clientX glassSize) offsetAmount, nsub (nsub clientY glassSize) offsetAmount)
  else if String.eqb glassPosition "Top-Right" then
    (nadd clientX offsetAmount, nsub (nsub clientY glassSize) offsetAmount)
  else if String.eqb glassPosition "Bottom-Left" then
    (nsub (nsub clientX glassSize) offsetAmount, nadd clientY offsetAmount)
  else if String.eqb glassPosition "Bottom-Right" then
    (nadd clientX offsetAmount, nadd clientY offsetAmount)
  else
    (nsub clientX (ndiv glassSize (num 2)), nadd clientY offsetAmount).

(** The point (px, py) lies strictly inside the square of side [size]
    whose top-left corner is [corner]. *)
Definition strictlyInside (corner : number * number) (size px py : number) : bool :=
  nlt (fst corner) px && nlt px (nadd (fst corner) size) &&
  nlt (snd corner) py && nlt py (nadd (snd corner) size).

(** The texture filter constants [gl.NEAREST] and [gl.LINEAR]. *)
Inductive FilterMode : Type := NEAREST | LINEAR.

(** The part of [WebGLRenderer] that [updateTextureFiltering] acts on:
    the context (present or not), [currentFilteringMode] ([None] is
    [null]), the two filter parameters of the texture, and the number of
    [texParameteri] calls made. *)
Record TextureState : Type := {
  gl : bool;
  currentFilteringMode : option FilterMode;
  minFilter : FilterMode;
  magFilter : FilterMode;
  texParameteriCalls : nat
}.

Definition FilterMode_eqb (a b : FilterMode) : bool :=
  match a, b with
  | NEAREST, NEAREST | LINEAR, LINEAR => true
  | _, _ => false
  end.

(** [WebGLRenderer.updateTextureFiltering] *)
Definition updateTextureFiltering (filteringModeString : string) (r : TextureState)
  : TextureState :=
  if negb (gl r) then r
  else
    let glFilterMode :=
      if String.eqb filteringModeString "Nearest" then NEAREST else LINEAR in
    if match currentFilteringMode r with
       | Some cur => FilterMode_eqb cur glFilterMode
       | None => false
       end
    then r
    else {| gl := gl r;
            currentFilteringMode := Some glFilterMode;
            minFilter := glFilterMode;
            magFilter := glFilterMode;
            texParameteriCalls := S (S (texParameteriCalls r)) |}.

(** The texture as [WebGLRenderer.initialize] leaves it for a
    configuration whose filtering setting is [filtering]: both filters
    set to LINEAR, then [updateTextureFiltering]. *)
Definition initializedTexture (filtering : string) : TextureState :=
  updateTextureFiltering filtering
    {| gl := true; currentFilteringMode := None;
       minFilter := LINEAR; magFilter := LINEAR; texParameteriCalls := 4 |}.

(** The store holds the decimal form of the configuration's offsets. *)
Definition inSync (fractionToString : Qc -> string) (m : MagnifyGlass) : Prop :=
  persistedOffsets m =
  (Some (toString fractionToString (offsetX (config m))),
   Some (toString fractionToString (offsetY (config m)))).

(** No ASCII upper-case letter occurs in the string. *)
Fixpoint noUpperCase (s : string) : bool :=
  match s with
  | EmptyString => true
  | String c r =>
      let n := N_of_ascii c in
      negb ((65 <=? n) && (n <=? 90))%N && noUpperCase r
  end.

(** The pointer event at the last known mouse position. *)
Definition lastKnownEvent (m : MagnifyGlass) : MouseEvent :=
  {| clientX := fst (lastKnownMousePosition m);
     clientY := snd (lastKnownMousePosition m) |}.

(** The canvas is laid out and finite: its client rectangle has finite
    position and positive finite size, its backing store a finite,
    non-negative size. *)
Definition canvasLaidOut (host : Host) : bool :=
  is_finite (rect_left (canvasRect host)) && is_finite (rect_top (canvasRect host)) &&
  is_finite (canvasWidth host) && is_finite (canvasHeight host) &&
  nlt (num 0) (rect_width (canvasRect host)) && is_finite (rect_width (canvasRect host)) &&
  nlt (num 0) (rect_height (canvasRect host)) && is_finite (rect_height (canvasRect host)) &&
  nle (num 0) (canvasWidth host) && nle (num 0) (canvasHeight host).

(** The filter constant a filtering setting stands for. *)
Definition modeOf (filteringModeString : string) : FilterMode :=
  if String.eqb filteringModeString "Nearest" then NEAREST else LINEAR.


(** More scenario data. *)
Definition shiftArrowDown : KeyboardEvent :=
  {| key := "ArrowDown"; altKey := false; shiftKey := true |}.

Definition plainX : KeyboardEvent :=
  {| key := "x"; altKey := false; shiftKey := false |}.

Definition set_activationKey (c : ConfigManager) (k : string) : ConfigManager := {|
  zoomFactor := zoomFactor c;
  glassSize := glassSize c;
  activationKey := k;
  altRequired := altRequired c;
  offsetStep := offsetStep c;
  resetKey := resetKey c;
  resetAltRequired := resetAltRequired c;
  offsetX := offsetX c;
  offsetY := offsetY c
|}.


(* ================================================================== *)
(** ** Inputs on which binary64 is exact *)

(** An integer of magnitude at most 2^31.  Sums, differences and halves
    of a few such numbers, and their products with small integer factors,
    are computed without rounding in binary64. *)
Definition isSmallInt (a : number) : bool :=
  match a with
  | Fin q => Pos.eqb (Qden (this q)) 1 && (Z.abs (Qnum (this q)) <=? 2147483648)%Z
  | _ => false
  end.

(** [Number.isSafeInteger]: an integer of magnitude at most 2^53 - 1. *)
Definition isSafeInteger (a : number) : bool :=
  match a with
  | Fin q => Pos.eqb (Qden (this q)) 1 &&
             (Z.abs (Qnum (this q)) <=? 9007199254740991)%Z
  | _ => false
  end.

(** Cursor, host pan offset, manual offset, glass size and zoom factor
    are small integers, and the zoom factor divides the glass size: the
    sample extent glassSize / zoomFactor is an integer (glass 300 and
    zoom 3, say), and the division that computes it is exact. *)
Definition integerInputs (c : ConfigManager) (s : MagnifierState) : bool :=
  isSmallInt (x s) && isSmallInt (y s) &&
  isSmallInt (canvasOffsetX s) && isSmallInt (canvasOffsetY s) &&
  isSmallInt (offsetX c) && isSmallInt (offsetY c) &&
  isSmallInt (glassSize c) && isSmallInt (zoomFactor c) &&
  isSmallInt (ndiv (glassSize c) (zoomFactor c)).

(** The host scale is a power of two between 1/256 and 256: multiplying
    and dividing by it is exact in binary64. *)
Definition powerOfTwoScale (a : number) : bool :=
  existsb (fun k : Z => nstrict_eq a (num (2 ^ k)) ||
                        nstrict_eq a (ndiv (num 1) (num (2 ^ k))))
          [0; 1; 2; 3; 4; 5; 6; 7; 8]%Z.

(** The backing store of the canvas has a small integer size that is a
    whole multiple of the size of its client rectangle (a device pixel
    ratio of 1, 2, 3, ...). *)
Definition integerLayout (host : Host) : bool :=
  isSmallInt (canvasWidth host) && isSmallInt (canvasHeight host) &&
  isSmallInt (ndiv (canvasWidth host) (rect_width (canvasRect host))) &&
  isSmallInt (ndiv (canvasHeight host) (rect_height (canvasRect host))).

(** The pointer and the client rectangle have small integer coordinates. *)
Definition integerPointer (rect : DOMRect) (e : MouseEvent) : bool :=
  isSmallInt (clientX e) && isSmallInt (clientY e) &&
  isSmallInt (rect_left rect) && isSmallInt (rect_top rect) &&
  isSmallInt (rect_width rect) && isSmallInt (rect_height rect).


(* ================================================================== *)
(** ** The arithmetic of the source on binary64 *)











(* ================================================================== *)
(** ** Arithmetic on finite numbers *)

Lemma Qc_of_Z_0 : Qc_of_Z 0 = 0.
Proof. apply Qc_is_canon. reflexivity. Qed.

Lemma Qc_of_Z_2 : Qc_of_Z 2 = 1 + 1.
Proof. apply Qc_is_canon. reflexivity. Qed.

Lemma Qc_two_neq_0 : (1 + 1 : Qc) <> 0.
Proof. intros H. discriminate (f_equal (fun q : Qc => Qnum (this q)) H). Qed.

Lemma Qc_eqb_false p q : p <> q -> Qc_eqb p q = false.
Proof. intros. unfold Qc_eqb. by apply bool_decide_eq_false. Qed.

Lemma Qc_eqb_true p q : p = q -> Qc_eqb p q = true.
Proof. intros. unfold Qc_eqb. by apply bool_decide_eq_true. Qed.

Lemma nadd_Fin p q : nadd (Fin p) (Fin q) = Fin (p + q).
Proof. reflexivity. Qed.

Lemma nsub_Fin p q : nsub (Fin p) (Fin q) = Fin (p - q).
Proof. reflexivity. Qed.

Lemma nmul_Fin p q : nmul (Fin p) (Fin q) = Fin (p * q).
Proof. reflexivity. Qed.

Lemma ndiv_Fin p q : q <> 0 -> ndiv (Fin p) (Fin q) = Fin (p / q).
Proof. intros H. unfold ndiv. by rewrite Qc_eqb_false. Qed.

Lemma nstrict_eq_Fin p q : p = q -> nstrict_eq (Fin p) (Fin q) = true.
Proof. apply Qc_eqb_true. Qed.

Lemma num_0 : num 0 = Fin 0.
Proof. unfold num. by rewrite Qc_of_Z_0. Qed.

Lemma num_2 : num 2 = Fin (1 + 1).
Proof. unfold num. by rewrite Qc_of_Z_2. Qed.

Lemma num_eq (a b : Z) : a = b -> num a = num b.
Proof. by intros ->. Qed.

Lemma Fin_canon (p q : Qc) : (this p == this q)%Q -> Fin p = Fin q.
Proof.
  intros H. f_equal. apply Qc_is_canon. exact H.
Qed.

Lemma nlt_irrefl a : nlt a a = false.
Proof.
  destruct a as [|s|q]; simpl; [done|by destruct s|].
  unfold Qc_ltb. apply bool_decide_eq_false.
  intros H. by apply Qclt_not_eq in H.
Qed.

Lemma nstrict_eq_eq a b : nstrict_eq a b = true -> a = b.
Proof.
  destruct a as [|s|p], b as [|t|q]; simpl; try discriminate.
  - intros H. f_equal. by apply Bool.eqb_prop.
  - unfold Qc_eqb. intros H. apply bool_decide_eq_true in H. by subst.
Qed.

Ltac fin_arith :=
  repeat first
    [ rewrite nadd_Fin | rewrite nsub_Fin | rewrite nmul_Fin
    | rewrite ndiv_Fin by first [assumption | apply Qc_two_neq_0] ].

(* ================================================================== *)
(** ** The sample rectangle *)


Lemma isSmallInt_finite (a : number) : isSmallInt a = true -> is_finite a = true.
Proof. by destruct a. Qed.

Lemma powerOfTwoScale_positive (a : number) :
  powerOfTwoScale a = true -> is_finite a = true /\ nlt (num 0) a = true.
Proof.
  unfold powerOfTwoScale. intros H. apply existsb_exists in H as (k & Hk & H).
  apply orb_prop in H as [H | H]; apply nstrict_eq_eq in H; subst a;
    repeat (destruct Hk as [<- | Hk]; [by vm_compute|]); destruct Hk.
Qed.

Lemma integerInputs_finite (c : ConfigManager) (s : MagnifierState) :
  integerInputs c s = true -> is_finite (canvasScale s) = true ->
  finiteInputs c s = true /\ nstrict_eq (zoomFactor c) (num 0) = false.
Proof.
  unfold integerInputs, finiteInputs. intros H Hs.
  repeat (apply andb_prop in H as [H ?]).
  repeat match goal with
         | H : isSmallInt _ = true |- _ => apply isSmallInt_finite in H
         end.
  destruct (glassSize c) as [| |gs]; try discriminate.
  destruct (zoomFactor c) as [| |zf]; try discriminate.
  split.
  - repeat (apply andb_true_intro; split); assumption.
  - match goal with H : is_finite (ndiv _ _) = true |- _ => rename H into Hq end.
    rewrite num_0. cbn in Hq |- *.
    destruct (Qc_eqb zf 0); [|done].
    by destruct (Qc_eqb gs 0).
Qed.




(** C2. Host scale 1, host offset (0,0), cursor (100,100), no manual
    offset, glass 300: with zoom 3 the sample rectangle is
    {x:50, y:50, width:100, height:100}; with zoom 1 its width and height
    are 300. *)
Theorem sample_rect_scenarios :
  sampleRect (calculateSourceRegion defaultConfig scenarioState)
  = {| rx := num 50; ry := num 50; rwidth := num 100; rheight := num 100 |} /\
  sourceWidth (calculateSourceRegion (set_zoomFactor defaultConfig (num 1)) scenarioState)
  = num 300 /\
  sourceHeight (calculateSourceRegion (set_zoomFactor defaultConfig (num 1)) scenarioState)
  = num 300.
Proof.
  assert (H1 : canvasScale scenarioState = Fin 1) by (apply Fin_canon; reflexivity).
  unfold calculateSourceRegion, sampleRect, set_source.
  rewrite H1.
  cbn [x y canvasScale canvasOffsetX canvasOffsetY offsetX offsetY glassSize
       zoomFactor sourceX sourceY sourceWidth sourceHeight scenarioState
       defaultConfig set_zoomFactor set_cursor initialState].
  replace (nstrict_eq (Fin 1) (num 0)) with false by (symmetry; by vm_compute).
  unfold num.
  assert (H3 : Qc_of_Z 3 <> 0) by (intros H; discriminate (f_equal (fun q : Qc => Qnum (this q)) H)).
  assert (H11 : Qc_of_Z 1 <> 0) by (intros H; discriminate (f_equal (fun q : Qc => Qnum (this q)) H)).
  assert (H12 : (1 : Qc) <> 0) by (intros H; discriminate (f_equal (fun q : Qc => Qnum (this q)) H)).
  assert (H2 : Qc_of_Z 2 <> 0) by (intros H; discriminate (f_equal (fun q : Qc => Qnum (this q)) H)).
  repeat first
    [ rewrite nadd_Fin | rewrite nsub_Fin | rewrite nmul_Fin
    | rewrite ndiv_Fin by assumption ].
  split; [f_equal|split]; apply Fin_canon; reflexivity.
Qed.

(** C3. When the host scale is 0, [calculateSourceRegion] returns at its
    guard: no division is made and the state, with the stored sample
    rectangle, is left exactly as it was. *)
Theorem zero_scale_leaves_state (c : ConfigManager) (s : MagnifierState) :
  nstrict_eq (canvasScale s) (num 0) = true ->
  calculateSourceRegion c s = s /\
  sampleRect (calculateSourceRegion c s) = sampleRect s.
Proof.
  intros H. unfold calculateSourceRegion. rewrite H. done.
Qed.

Lemma zero_scale_leaves_state_witness :
  let s := set_transform scenarioState (num 0) (num 7) (num 9) in
  calculateSourceRegion defaultConfig s = s /\
  sampleRect (calculateSourceRegion defaultConfig s) = sampleRect s.
Proof.
  apply (zero_scale_leaves_state defaultConfig
           (set_transform scenarioState (num 0) (num 7) (num 9))).
  vm_compute. reflexivity.
Defined.

(* ================================================================== *)
(** ** The overlap test *)

(** C4. [rectsOverlap] is symmetric, and rectangles that touch along an
    edge (on any of the four sides) do not overlap. *)
Theorem rectsOverlap_symmetric_and_strict (a b : Rect) :
  rectsOverlap a b = rectsOverlap b a /\
  (touching a b -> rectsOverlap a b = false).
Proof.
  split.
  - unfold rectsOverlap, ngt.
    destruct (nlt (rx a) (nadd (rx b) (rwidth b))),
             (nlt (rx b) (nadd (rx a) (rwidth a))),
             (nlt (ry a) (nadd (ry b) (rheight b))),
             (nlt (ry b) (nadd (ry a) (rheight a))); reflexivity.
  - unfold touching, rectsOverlap, ngt.
    intros [H | [H | [H | H]]]; rewrite H, nlt_irrefl;
      rewrite ?andb_false_r, ?andb_false_l; reflexivity.
Qed.

Lemma rectsOverlap_symmetric_and_strict_witness :
  let a := {| rx := num 0; ry := num 0; rwidth := num 10; rheight := num 10 |} in
  let b := {| rx := num 10; ry := num 0; rwidth := num 5; rheight := num 5 |} in
  rectsOverlap a b = false.
Proof.
  apply (rectsOverlap_symmetric_and_strict
           {| rx := num 0; ry := num 0; rwidth := num 10; rheight := num 10 |}
           {| rx := num 10; ry := num 0; rwidth := num 5; rheight := num 5 |}).
  left. apply Fin_canon. reflexivity.
Defined.

(* ================================================================== *)
(** ** Reading back stored integers *)

Lemma digitValue_pretty_N_char (d : N) :
  (d < 10)%N -> digitValue (pretty_N_char d) = Some (Z.of_N d).
Proof.
  intros H.
  assert (d = 0 ∨ d = 1 ∨ d = 2 ∨ d = 3 ∨ d = 4 ∨ d = 5 ∨ d = 6 ∨ d = 7 ∨ d = 8 ∨ d = 9)%N
    as Hd by lia.
  repeat (destruct Hd as [-> | Hd]; [reflexivity|]). by subst.
Qed.

Lemma isWhiteSpace_pretty_N_char (d : N) : isWhiteSpace (pretty_N_char d) = false.
Proof. unfold pretty_N_char. by repeat case_match. Qed.

Lemma sign_pretty_N_char (d : N) :
  pretty_N_char d <> "-"%char /\ pretty_N_char d <> "+"%char.
Proof. unfold pretty_N_char. by repeat case_match. Qed.

(** Reading back the digits written for a positive number. *)
Lemma parseDigits_pretty_N_go (n : N) : forall s,
  (0 < n)%N ->
  parseDigits (pretty_N_go n s) None = parseDigits s (Some (Z.of_N n)).
Proof.
  induction (N.lt_wf_0 n) as [n _ IH]; intros s Hn.
  rewrite pretty_N_go_step by done.
  assert (Hmod : (n `mod` 10 < 10)%N) by (apply N.mod_lt; lia).
  destruct (decide (n `div` 10 = 0)%N) as [Hz | Hnz].
  - rewrite Hz, pretty_N_go_0. simpl.
    rewrite digitValue_pretty_N_char by done. f_equal. f_equal.
    pose proof (N.div_mod n 10 ltac:(done)) as HH. lia.
  - rewrite IH; [|by apply N.div_lt|by apply N.neq_0_lt_0]. simpl.
    rewrite digitValue_pretty_N_char by done. f_equal. f_equal.
    pose proof (N.div_mod n 10 ltac:(done)). simpl. lia.
Qed.

Lemma pretty_N_go_head (n : N) : forall s,
  (0 < n)%N -> exists d r, pretty_N_go n s = String (pretty_N_char d) r.
Proof.
  induction (N.lt_wf_0 n) as [n _ IH]; intros s Hn.
  rewrite pretty_N_go_step by done.
  destruct (decide (n `div` 10 = 0)%N) as [Hz | Hnz].
  - rewrite Hz, pretty_N_go_0. eauto.
  - apply IH; [by apply N.div_lt|by apply N.neq_0_lt_0].
Qed.

Lemma parseInt_unsigned (c : ascii) (r : string) :
  isWhiteSpace c = false -> c <> "-"%char -> c <> "+"%char ->
  parseInt (String c r) =
  match parseDigits (String c r) None with
  | Some z => num z
  | None => NaN
  end.
Proof.
  intros Hw Hm Hp. unfold parseInt. simpl trimStart. rewrite Hw.
  destruct c as [[] [] [] [] [] [] [] []]; try reflexivity; congruence.
Qed.

Lemma parseInt_minus (r : string) :
  parseInt (String "-" r) =
  match parseDigits r None with
  | Some z => num (- z)
  | None => NaN
  end.
Proof. reflexivity. Qed.

Lemma parseInt_pretty_positive (p : positive) :
  parseInt (pretty p) = num (Z.pos p) /\
  parseInt ("-" +:+ pretty p) = num (Z.neg p).
Proof.
  unfold pretty, pretty_positive, pretty, pretty_N.
  destruct (decide (N.pos p = 0%N)) as [|_]; [done|].
  destruct (pretty_N_go_head (N.pos p) "") as (d & r & Hd); [done|].
  pose proof (parseDigits_pretty_N_go (N.pos p) "" eq_refl) as Hp.
  split.
  - rewrite Hd in *.
    rewrite parseInt_unsigned
      by first [apply isWhiteSpace_pretty_N_char | apply sign_pretty_N_char].
    rewrite Hp. reflexivity.
  - change (parseInt (String "-" (pretty_N_go (N.pos p) "")) = num (Z.neg p)).
    rewrite parseInt_minus, Hp. reflexivity.
Qed.

(** [parseInt] reads back the decimal form of an integer. *)
Lemma parseInt_pretty (z : Z) : parseInt (pretty z) = num z.
Proof.
  destruct z as [|p|p].
  - reflexivity.
  - apply parseInt_pretty_positive.
  - apply parseInt_pretty_positive.
Qed.

(* ================================================================== *)
(** ** Loading the saved offsets *)




(* ================================================================== *)
(** ** What a render request touches *)

Lemma calculateSourceRegion_frame (c : ConfigManager) (s : MagnifierState) :
  let s' := calculateSourceRegion c s in
  active s' = active s /\ isRenderScheduled s' = isRenderScheduled s /\
  x s' = x s /\ y s' = y s.
Proof.
  unfold calculateSourceRegion.
  destruct (nstrict_eq (canvasScale s) (num 0)); done.
Qed.

Lemma updateCanvasTransformation_frame (host : Host) (s : MagnifierState) :
  let s' := updateCanvasTransformation host s in
  active s' = active s /\ isRenderScheduled s' = isRenderScheduled s /\
  x s' = x s /\ y s' = y s /\ sampleRect s' = sampleRect s.
Proof.
  unfold updateCanvasTransformation.
  destruct (ds host) as [[[sc|] [[o0 o1]|]]|]; done.
Qed.

Lemma recomputed_frame (host : Host) (m : MagnifyGlass) :
  active (recomputed host m) = active (state m) /\
  isRenderScheduled (recomputed host m) = isRenderScheduled (state m) /\
  x (recomputed host m) = x (state m) /\ y (recomputed host m) = y (state m).
Proof.
  unfold recomputed.
  destruct (calculateSourceRegion_frame (config m)
              (updateCanvasTransformation host (state m))) as (-> & -> & -> & ->).
  destruct (updateCanvasTransformation_frame host (state m)) as (-> & -> & -> & -> & _).
  done.
Qed.

Lemma updateMagnifiedView_cases (host : Host) (m : MagnifyGlass) :
  updateMagnifiedView host m =
  if notReady m then m
  else if isRenderScheduled (state m)
       then set_state m (recomputed host m)
       else set_animationFrameRequests
              (set_state m (set_isRenderScheduled (recomputed host m) true))
              (S (animationFrameRequests m)).
Proof.
  unfold updateMagnifiedView. destruct (notReady m); [done|].
  cbn [state config set_state animationFrameRequests].
  fold (recomputed host m).
  destruct (recomputed_frame host m) as (_ & -> & _).
  by destruct (isRenderScheduled (state m)).
Qed.

(** A render request leaves everything but the state and the waiting
    callbacks as it was, and never changes activation. *)
Lemma updateMagnifiedView_frame (host : Host) (m : MagnifyGlass) :
  let m' := updateMagnifiedView host m in
  config m' = config m /\ ui m' = ui m /\ renderer m' = renderer m /\
  litegraphCanvas m' = litegraphCanvas m /\
  lastKnownMousePosition m' = lastKnownMousePosition m /\
  localStorage m' = localStorage m /\ renderCalls m' = renderCalls m /\
  active (state m') = active (state m).
Proof.
  cbv zeta. rewrite updateMagnifiedView_cases.
  destruct (recomputed_frame host m) as (Ha & _).
  destruct (notReady m); [done|].
  destruct (isRenderScheduled (state m)); cbn; rewrite ?Ha; done.
Qed.

Lemma updateMagnifiedView_scheduling (host : Host) (m : MagnifyGlass) :
  schedulingInvariant m -> schedulingInvariant (updateMagnifiedView host m).
Proof.
  unfold schedulingInvariant. rewrite updateMagnifiedView_cases.
  destruct (recomputed_frame host m) as (_ & Hf & _).
  destruct (notReady m); [done|].
  destruct (isRenderScheduled (state m)) eqn:E; cbn; rewrite ?Hf, ?E; [done|].
  by intros ->.
Qed.

Lemma updateMagnifiedView_overlay (host : Host) (m : MagnifyGlass) :
  overlayInvariant m -> overlayInvariant (updateMagnifiedView host m).
Proof.
  unfold overlayInvariant.
  destruct (updateMagnifiedView_frame host m) as (_ & -> & _ & _ & _ & _ & _ & ->).
  done.
Qed.

Lemma updateInitialPosition_cases (host : Host) (m : MagnifyGlass) :
  updateInitialPosition host m = m \/
  exists px py cx cy,
    updateInitialPosition host m =
    updateMagnifiedView host
      (set_ui (set_state m (set_cursor (state m) px py)) (positionGlass (ui m) cx cy)).
Proof.
  unfold updateInitialPosition.
  destruct (negb (litegraphCanvas m)); [by left|].
  match goal with |- context [if ?b then _ else _] => destruct b end; [|by left].
  destruct (toCanvasPixels host _ _) as [px py]. right. by eexists _, _, _, _.
Qed.

Section Handlers.

Variable fractionToString : Qc -> string.

Lemma activate_cases (host : Host) (e : KeyboardEvent) (m : MagnifyGlass) :
  activate host e m = m \/
  (active (state m) = false /\
   activate host e m =
   updateInitialPosition host
     (set_ui (set_state m (set_active (state m) true)) (show (ui m)))).
Proof.
  unfold activate.
  match goal with |- context [if ?b then _ else _] => destruct b end; [|by left].
  destruct (active (state m)); [by left|by right].
Qed.

Lemma updateMagnifiedView_preserves (host : Host) :
  handlerPreserves (updateMagnifiedView host).
Proof.
  intros m. split; [apply updateMagnifiedView_scheduling|].
  split; [apply updateMagnifiedView_overlay|].
  apply updateMagnifiedView_frame.
Qed.

Lemma updateInitialPosition_preserves (host : Host) :
  handlerPreserves (updateInitialPosition host).
Proof.
  intros m.
  destruct (updateInitialPosition_cases host m) as [-> | (px & py & cx & cy & ->)];
    [done|].
  destruct (updateMagnifiedView_preserves host
              (set_ui (set_state m (set_cursor (state m) px py))
                      (positionGlass (ui m) cx cy))) as (HS & HO & ->).
  split; [|split]; [intros H; apply HS, H|intros H; apply HO, H|done].
Qed.

Lemma activate_preserves (host : Host) (e : KeyboardEvent) :
  handlerPreserves (activate host e).
Proof.
  intros m.
  destruct (activate_cases host e m) as [-> | [Ha ->]]; [done|].
  destruct (updateInitialPosition_preserves host
              (set_ui (set_state m (set_active (state m) true)) (show (ui m))))
    as (HS & HO & ->).
  split; [|split]; [intros H; apply HS, H| |done].
  intros _. apply HO. unfold overlayInvariant. cbn. done.
Qed.

Lemma handleKeyDown_preserves (host : Host) (e : KeyboardEvent) :
  handlerPreserves (handleKeyDown fractionToString host e).
Proof.
  intros m. unfold handleKeyDown.
  destruct (activate_preserves host e m) as (HS & HO & HR).
  destruct (active (state (activate host e m))); [|done].
  destruct (adjustOffsets e (config (activate host e m))) as [c|]; [|done].
  match goal with |- context [updateMagnifiedView host ?m1] =>
    destruct (updateMagnifiedView_preserves host m1) as (HS' & HO' & ->) end.
  split; [|split]; [intros H; apply HS', HS, H|intros H; apply HO', HO, H|exact HR].
Qed.

Lemma handleKeyUp_preserves (e : KeyboardEvent) :
  handlerPreserves (handleKeyUp e).
Proof.
  intros m. unfold handleKeyUp.
  match goal with |- context [if ?b then _ else _] => destruct b end; [|done].
  match goal with |- context [if ?b then _ else _] => destruct b end; [|done].
  split; [done|]. split; [|done].
  intros _. unfold overlayInvariant. cbn. done.
Qed.

Lemma handleMouseMove_preserves (host : Host) (e : MouseEvent) :
  handlerPreserves (handleMouseMove host e).
Proof.
  intros m. unfold handleMouseMove.
  match goal with |- context [if ?b then _ else _] => destruct b end; [done|].
  match goal with |- context [if ?b then _ else _] => destruct b end; [|done].
  destruct (toCanvasPixels host _ _) as [px py].
  match goal with |- context [updateMagnifiedView host ?m1] =>
    destruct (updateMagnifiedView_preserves host m1) as (HS' & HO' & ->) end.
  split; [|split]; [intros H; apply HS', H|intros H; apply HO', H|done].
Qed.

End Handlers.

(* ================================================================== *)
(** ** The frame tick *)

Lemma renderHtmlOverlays_frame (host : Host) (m : MagnifyGlass) :
  let m' := renderHtmlOverlays host m in
  state m' = state m /\ renderCalls m' = renderCalls m /\
  animationFrameRequests m' = animationFrameRequests m /\
  glassDisplay (ui m') = glassDisplay (ui m) /\
  (active (state m) = false -> htmlOverlayContainer (ui m') = []).
Proof.
  unfold renderHtmlOverlays.
  destruct (graphWidgets host) as [ws|]; [|done].
  destruct (active (state m)); [|done].
  destruct (litegraphCanvas m); done.
Qed.

(** The callback clears the pending flag, renders at most once and does
    not ask for another frame. *)
Lemma animationFrameCallback_spec (host : Host) (m : MagnifyGlass) :
  let m' := animationFrameCallback host m in
  isRenderScheduled (state m') = false /\
  animationFrameRequests m' = animationFrameRequests m /\
  (renderCalls m' = renderCalls m \/
   exists call, renderCalls m' = renderCalls m ++ [call]) /\
  (overlayInvariant m -> overlayInvariant m').
Proof.
  unfold animationFrameCallback.
  destruct (notReady m) eqn:Hn.
  { split; [done|]. split; [done|]. split; [by left|]. done. }
  destruct (renderHtmlOverlays_frame host (render host m)) as (Hs & Hr & Hq & Hd & Hc).
  cbn [state set_state renderCalls animationFrameRequests isRenderScheduled
       set_isRenderScheduled ui].
  rewrite Hr, Hq. split; [done|]. split; [done|]. split.
  - right. by eexists.
  - unfold overlayInvariant.
    cbn [state set_state ui active set_isRenderScheduled].
    rewrite Hs, Hd. cbn [render state ui set_renderCalls] in *.
    intros [H1 H2]. split; [done|]. exact Hc.
Qed.

Lemma animationFrame_overlay (host : Host) (m : MagnifyGlass) :
  overlayInvariant m -> overlayInvariant (animationFrame host m).
Proof.
  unfold animationFrame. intros H.
  induction (animationFrameRequests m) as [|n IH]; [exact H|].
  cbn [Nat.iter nat_rect]. by apply animationFrameCallback_spec.
Qed.

(** One frame tick, from a state where the scheduling invariant holds:
    at most one call to [render], and the pending flag is clear. *)
Lemma animationFrame_single_flight (host : Host) (m : MagnifyGlass) :
  schedulingInvariant m ->
  let m' := animationFrame host m in
  schedulingInvariant m' /\
  isRenderScheduled (state m') = false /\
  (renderCalls m' = renderCalls m \/
   exists call, renderCalls m' = renderCalls m ++ [call]).
Proof.
  unfold schedulingInvariant, animationFrame. intros ->.
  destruct (isRenderScheduled (state m)) eqn:E.
  - cbn [Nat.iter nat_rect].
    destruct (animationFrameCallback_spec host (set_animationFrameRequests m 0))
      as (Hf & Hq & Hr & _).
    rewrite Hf, Hq. done.
  - cbn. rewrite E. repeat split. by left.
Qed.

(* ================================================================== *)
(** ** Reachable states *)

Lemma step_preserves (fts : Qc -> string) (ev : Event) (m : MagnifyGlass) :
  schedulingInvariant m /\ overlayInvariant m ->
  schedulingInvariant (step fts m ev) /\ overlayInvariant (step fts m ev).
Proof.
  intros [HS HO]. destruct ev as [host e|e|host e|host]; cbn [step].
  - destruct (handleKeyDown_preserves fts host e m) as (H1 & H2 & _). auto.
  - destruct (handleKeyUp_preserves e m) as (H1 & H2 & _). auto.
  - destruct (handleMouseMove_preserves host e m) as (H1 & H2 & _). auto.
  - split; [by apply animationFrame_single_flight|by apply animationFrame_overlay].
Qed.

Lemma run_preserves (fts : Qc -> string) (evs : list Event) : forall m,
  schedulingInvariant m /\ overlayInvariant m ->
  schedulingInvariant (run fts m evs) /\ overlayInvariant (run fts m evs).
Proof.
  induction evs as [|ev evs IH]; intros m H; [exact H|].
  cbn [run fold_left]. apply IH. by apply step_preserves.
Qed.

Lemma initial_invariants (c : ConfigManager) (st : Storage) :
  schedulingInvariant (initialMagnifyGlass c st) /\
  overlayInvariant (initialMagnifyGlass c st).
Proof. unfold schedulingInvariant, overlayInvariant. cbn. done. Qed.

Lemma step_no_render (fts : Qc -> string) (ev : Event) (m : MagnifyGlass) :
  isAnimationFrame ev = false -> renderCalls (step fts m ev) = renderCalls m.
Proof.
  destruct ev as [host e|e|host e|host]; cbn [step isAnimationFrame]; [| | |done];
    intros _.
  - apply handleKeyDown_preserves.
  - apply handleKeyUp_preserves.
  - apply handleMouseMove_preserves.
Qed.

Lemma run_no_render (fts : Qc -> string) (evs : list Event) : forall m,
  forallb (fun ev => negb (isAnimationFrame ev)) evs = true ->
  renderCalls (run fts m evs) = renderCalls m.
Proof.
  induction evs as [|ev evs IH]; intros m H; [done|].
  cbn [forallb] in H. apply andb_prop in H as [H1 H2].
  cbn [run fold_left]. unfold run in IH. rewrite IH by done.
  apply step_no_render. by destruct (isAnimationFrame ev).
Qed.

Lemma run_app (fts : Qc -> string) (m : MagnifyGlass) (evs1 evs2 : list Event) :
  run fts m (evs1 ++ evs2) = run fts (run fts m evs1) evs2.
Proof. apply fold_left_app. Qed.

(** C6. Render scheduling is single-flight.  From any state reached from
    start-up, whatever render requests (key and pointer events) arrive
    before the next frame tick, they make no call to [render] themselves
    and the tick makes at most one; after the tick the pending flag is
    clear; and a request arriving while the flag is set queues no second
    callback. *)
Theorem render_single_flight (fts : Qc -> string) (c : ConfigManager)
    (st : Storage) (evs requests : list Event) (host : Host) :
  forallb (fun ev => negb (isAnimationFrame ev)) requests = true ->
  let m := run fts (initialMagnifyGlass c st) evs in
  let m1 := run fts m requests in
  let m2 := animationFrame host m1 in
  renderCalls m1 = renderCalls m /\
  (renderCalls m2 = renderCalls m \/ exists call, renderCalls m2 = renderCalls m ++ [call]) /\
  isRenderScheduled (state m2) = false /\
  (isRenderScheduled (state m) = true ->
   forall host', let m' := updateMagnifiedView host' m in
     animationFrameRequests m' = animationFrameRequests m /\
     isRenderScheduled (state m') = true /\
     renderCalls m' = renderCalls m).
Proof.
  intros Hreq m m1 m2.
  assert (Hm1 : renderCalls m1 = renderCalls m) by (by apply run_no_render).
  assert (Hinv : schedulingInvariant m1).
  { unfold m1, m. rewrite <- run_app. apply run_preserves, initial_invariants. }
  destruct (animationFrame_single_flight host m1 Hinv) as (_ & Hf & Hr).
  fold m2 in Hf, Hr. rewrite Hm1 in Hr.
  split; [done|]. split; [done|]. split; [done|].
  intros Hp host'. cbv zeta. rewrite updateMagnifiedView_cases.
  destruct (recomputed_frame host' m) as (_ & Hfl & _).
  destruct (notReady m); [done|]. rewrite Hp. cbn. rewrite Hfl. done.
Qed.

(** C8. In every state reached from start-up by key-down, key-up,
    pointer-move and frame events, the overlay is displayed exactly when
    the magnifier is active, and the overlay container holds no clone
    while it is inactive. *)
Theorem overlay_visible_iff_active (fts : Qc -> string) (c : ConfigManager)
    (st : Storage) (evs : list Event) :
  let m := run fts (initialMagnifyGlass c st) evs in
  (glassDisplay (ui m) = DisplayBlock <-> active (state m) = true) /\
  (active (state m) = false -> htmlOverlayContainer (ui m) = []).
Proof.
  apply (run_preserves fts evs (initialMagnifyGlass c st)), initial_invariants.
Qed.

(* ================================================================== *)
(** ** Resetting and nudging the manual offset *)

Lemma offset_keys_differ : offsetXKey <> offsetYKey.
Proof. discriminate. Qed.

(** Saving the offsets (0,0) into a store that accepts the writes. *)
Lemma saveOffsets_zero (fts : Qc -> string) (c : ConfigManager) (st : Storage) :
  writable st = true -> offsetX c = num 0 -> offsetY c = num 0 ->
  let st' := saveOffsets fts c st in
  items st' !! offsetXKey = Some "0" /\ items st' !! offsetYKey = Some "0" /\
  writable st' = true.
Proof.
  unfold writable, saveOffsets, setItem. intros Hw -> ->.
  apply andb_prop in Hw as [HX HY].
  apply negb_true_iff in HX, HY.
  cbn [setItemThrows items]. rewrite HX. cbn [setItemThrows items]. rewrite HY.
  cbn [setItemThrows items]. rewrite HX, HY.
  change (toString fts (num 0)) with "0".
  rewrite lookup_insert_ne by (apply not_eq_sym, offset_keys_differ).
  rewrite !lookup_insert_eq. done.
Qed.

Lemma resetOffsets_once (fts : Qc -> string) (host : Host) (m : MagnifyGlass) :
  writable (localStorage m) = true -> resetDone m (resetOffsets fts host m).
Proof.
  intros Hw. unfold resetOffsets, resetDone, manualOffset, persistedOffsets.
  destruct (saveOffsets_zero fts (set_offsets (config m) (num 0) (num 0))
              (localStorage m) Hw eq_refl eq_refl) as (HX & HY & Hw').
  cbn [state set_localStorage set_config].
  destruct (active (state m)) eqn:Ha.
  - match goal with |- context [updateMagnifiedView host ?m1] =>
      destruct (updateMagnifiedView_frame host m1)
        as (-> & _ & _ & _ & _ & -> & _ & ->) end.
    cbn [config localStorage state set_localStorage set_config offsetX offsetY
         set_offsets resetKey resetAltRequired].
    rewrite HX, HY. done.
  - cbn [config localStorage state set_localStorage set_config offsetX offsetY
         set_offsets resetKey resetAltRequired].
    rewrite HX, HY. done.
Qed.

Lemma isResetPress_adjustOffsets (c : ConfigManager) (e : KeyboardEvent) :
  isResetPress c e = true ->
  adjustOffsets e c = Some (set_offsets c (num 0) (num 0)).
Proof.
  unfold isResetPress, isArrowKey, adjustOffsets. intros H.
  apply andb_prop in H as [H H3]. apply andb_prop in H as [H1 H2].
  apply negb_true_iff in H1.
  apply orb_false_elim in H1 as [H1 Hr]. apply orb_false_elim in H1 as [H1 Hl].
  apply orb_false_elim in H1 as [Hu Hd].
  rewrite Hu, Hd, Hl, Hr, H2, H3. done.
Qed.

Lemma activate_active (host : Host) (e : KeyboardEvent) (m : MagnifyGlass) :
  active (state m) = true -> activate host e m = m.
Proof.
  intros Ha. unfold activate. rewrite Ha.
  by match goal with |- context [if ?b then _ else _] => destruct b end.
Qed.

Lemma reset_key_once (fts : Qc -> string) (host : Host) (e : KeyboardEvent)
    (m : MagnifyGlass) :
  active (state m) = true -> isResetPress (config m) e = true ->
  writable (localStorage m) = true ->
  resetDone m (handleKeyDown fts host e m).
Proof.
  intros Ha He Hw. unfold handleKeyDown.
  rewrite activate_active by done. rewrite Ha.
  rewrite isResetPress_adjustOffsets by done.
  destruct (saveOffsets_zero fts (set_offsets (config m) (num 0) (num 0))
              (localStorage m) Hw eq_refl eq_refl) as (HX & HY & Hw').
  unfold resetDone, manualOffset, persistedOffsets.
  match goal with |- context [updateMagnifiedView host ?m1] =>
    destruct (updateMagnifiedView_frame host m1)
      as (-> & _ & _ & _ & _ & -> & _ & ->) end.
  cbn [config localStorage state set_localStorage set_config offsetX offsetY
       set_offsets resetKey resetAltRequired].
  rewrite HX, HY. done.
Qed.

Lemma isResetPress_ext (c c' : ConfigManager) (e : KeyboardEvent) :
  resetKey c' = resetKey c -> resetAltRequired c' = resetAltRequired c ->
  isResetPress c' e = isResetPress c e.
Proof. unfold isResetPress. by intros -> ->. Qed.

(** C7. The reset is idempotent.  With a store that accepts the writes,
    [resetOffsets], and likewise a press of the reset key with its
    required modifier while the magnifier is active, sets both manual
    offsets to 0 and stores "0" under both keys; done twice in a row it
    does so both times. *)
Theorem reset_is_idempotent (fts : Qc -> string) (host1 host2 : Host)
    (m : MagnifyGlass) :
  writable (localStorage m) = true ->
  (let r1 := resetOffsets fts host1 m in
   let r2 := resetOffsets fts host2 r1 in
   manualOffset r1 = (num 0, num 0) /\
   persistedOffsets r1 = (Some "0", Some "0") /\
   manualOffset r2 = (num 0, num 0) /\
   persistedOffsets r2 = (Some "0", Some "0")) /\
  (forall e1 e2 : KeyboardEvent,
     active (state m) = true ->
     isResetPress (config m) e1 = true -> isResetPress (config m) e2 = true ->
     let k1 := handleKeyDown fts host1 e1 m in
     let k2 := handleKeyDown fts host2 e2 k1 in
     manualOffset k1 = (num 0, num 0) /\
     persistedOffsets k1 = (Some "0", Some "0") /\
     manualOffset k2 = (num 0, num 0) /\
     persistedOffsets k2 = (Some "0", Some "0")).
Proof.
  intros Hw. split.
  - destruct (resetOffsets_once fts host1 m Hw) as (H1 & H2 & Hw1 & _).
    destruct (resetOffsets_once fts host2 _ Hw1) as (H3 & H4 & _).
    done.
  - intros e1 e2 Ha He1 He2.
    destruct (reset_key_once fts host1 e1 m Ha He1 Hw)
      as (H1 & H2 & Hw1 & Ha1 & Hk & Hr).
    rewrite Ha in Ha1. rewrite <- (isResetPress_ext _ _ e2 Hk Hr) in He2.
    destruct (reset_key_once fts host2 e2 _ Ha1 He2 Hw1) as (H3 & H4 & _).
    done.
Qed.


(* ================================================================== *)
(** ** Pointer moves outside the canvas *)




Lemma integerPointer_finite (rect : DOMRect) (e : MouseEvent) :
  integerPointer rect e = true -> finitePointer rect e = true.
Proof.
  unfold integerPointer, finitePointer. intros H.
  repeat (apply andb_prop in H as [H ?]).
  repeat match goal with
         | H : isSmallInt _ = true |- _ => apply isSmallInt_finite in H
         end.
  repeat (apply andb_true_intro; split); assumption.
Qed.




(* ================================================================== *)
(** ** The properties at work on a session *)

Lemma render_single_flight_witness :
  let m := run noFraction (initialMagnifyGlass defaultConfig (storeOf [])) [KeyDown plainHost altX] in
  let m1 := run noFraction m twoPointerMoves in
  let m2 := animationFrame plainHost m1 in
  forallb (fun ev => negb (isAnimationFrame ev)) twoPointerMoves = true /\
  renderCalls m1 = renderCalls m /\
  (renderCalls m2 = renderCalls m \/ exists call, renderCalls m2 = renderCalls m ++ [call]) /\
  isRenderScheduled (state m2) = false.
Proof.
  split; [vm_compute; reflexivity|].
  pose proof (render_single_flight noFraction defaultConfig (storeOf [])
                [KeyDown plainHost altX] twoPointerMoves plainHost eq_refl) as H.
  cbv zeta in H. destruct H as (H1 & H2 & H3 & _).
  split; [exact H1|]. split; [exact H2|exact H3].
Defined.

(** Scenario 5: two pointer moves before the frame tick, one call to
    [render]. *)
Example two_moves_one_render :
  active (state switchedOn) = true /\
  animationFrameRequests (run noFraction switchedOn twoPointerMoves) = 1%nat /\
  length (renderCalls (animationFrame plainHost
                         (run noFraction switchedOn twoPointerMoves))) = 1%nat.
Proof. vm_compute. done. Qed.

Lemma switchedOn_writable : writable (localStorage switchedOn) = true.
Proof. vm_compute. reflexivity. Qed.

Lemma reset_is_idempotent_witness :
  let r1 := resetOffsets noFraction plainHost switchedOn in
  let r2 := resetOffsets noFraction plainHost r1 in
  writable (localStorage switchedOn) = true /\
  manualOffset r1 = (num 0, num 0) /\
  persistedOffsets r1 = (Some "0", Some "0") /\
  manualOffset r2 = (num 0, num 0) /\
  persistedOffsets r2 = (Some "0", Some "0").
Proof.
  split; [exact switchedOn_writable|].
  exact (proj1 (reset_is_idempotent noFraction plainHost plainHost switchedOn
                  switchedOn_writable)).
Defined.



(* ================================================================== *)
(** ** The host transform as read each time *)

Lemma orZero_not_NaN (v : option number) : orZero v <> NaN.
Proof.
  destruct v as [[|s|q]|]; cbn; try discriminate.
  destruct (negb (Qc_eqb q 0)); discriminate.
Qed.

(** X1. [updateCanvasTransformation] overwrites whatever transform the
    state held: reading the host again after any earlier read gives the
    same state as reading it once; and the offsets it stores are never
    NaN. *)
Theorem updateCanvasTransformation_overwrites (host host' : Host)
    (s : MagnifierState) :
  updateCanvasTransformation host (updateCanvasTransformation host' s)
  = updateCanvasTransformation host s /\
  canvasOffsetX (updateCanvasTransformation host s) <> NaN /\
  canvasOffsetY (updateCanvasTransformation host s) <> NaN.
Proof.
  split.
  - unfold updateCanvasTransformation.
    destruct (ds host') as [[[sc'|] [[a' b']|]]|], (ds host) as [[[sc|] [[a b]|]]|];
      reflexivity.
  - unfold updateCanvasTransformation.
    destruct (ds host) as [[[sc|] [[a b]|]]|]; cbn;
      auto using orZero_not_NaN; split; discriminate.
Qed.

(* ================================================================== *)
(** ** The sample rectangle in canvas pixels *)

Lemma finiteInputs_fields (c : ConfigManager) (s : MagnifierState) :
  finiteInputs c s = true ->
  exists cx cy sc hx hy ox oy gs zf,
    x s = Fin cx /\ y s = Fin cy /\ canvasScale s = Fin sc /\
    canvasOffsetX s = Fin hx /\ canvasOffsetY s = Fin hy /\
    offsetX c = Fin ox /\ offsetY c = Fin oy /\
    glassSize c = Fin gs /\ zoomFactor c = Fin zf.
Proof.
  unfold finiteInputs. intros H. repeat (apply andb_prop in H as [H ?]).
  destruct (x s) as [| |cx]; try discriminate.
  destruct (y s) as [| |cy]; try discriminate.
  destruct (canvasScale s) as [| |sc]; try discriminate.
  destruct (canvasOffsetX s) as [| |hx]; try discriminate.
  destruct (canvasOffsetY s) as [| |hy]; try discriminate.
  destruct (offsetX c) as [| |ox]; try discriminate.
  destruct (offsetY c) as [| |oy]; try discriminate.
  destruct (glassSize c) as [| |gs]; try discriminate.
  destruct (zoomFactor c) as [| |zf]; try discriminate.
  by eexists _, _, _, _, _, _, _, _, _.
Qed.

Lemma nstrict_eq_Fin_0_false (q : Qc) :
  nstrict_eq (Fin q) (num 0) = false -> q <> 0.
Proof.
  rewrite num_0. cbn. intros H ->. by rewrite Qc_eqb_true in H.
Qed.

(** The four fields written by [calculateSourceRegion], in closed form. *)
Lemma calculateSourceRegion_closed_form (c : ConfigManager) (s : MagnifierState)
    (cx cy sc hx hy ox oy gs zf : Qc) :
  x s = Fin cx -> y s = Fin cy -> canvasScale s = Fin sc ->
  canvasOffsetX s = Fin hx -> canvasOffsetY s = Fin hy ->
  offsetX c = Fin ox -> offsetY c = Fin oy ->
  glassSize c = Fin gs -> zoomFactor c = Fin zf ->
  sc <> 0 -> zf <> 0 ->
  let s' := calculateSourceRegion c s in
  sourceX s' = Fin (cx + ox * sc - gs / zf / (1 + 1)) /\
  sourceY s' = Fin (cy + oy * sc - gs / zf / (1 + 1)) /\
  sourceWidth s' = Fin (gs / zf) /\
  sourceHeight s' = Fin (gs / zf).
Proof.
  intros Hx Hy Hsc Hhx Hhy Hox Hoy Hgs Hzf Hsc0 Hz0.
  unfold calculateSourceRegion, set_source.
  rewrite Hx, Hy, Hsc, Hhx, Hhy, Hox, Hoy, Hgs, Hzf, num_0, num_2.
  replace (nstrict_eq (Fin sc) (Fin 0)) with false by (symmetry; by apply Qc_eqb_false).
  cbn [sourceX sourceY sourceWidth sourceHeight].
  fin_arith.
  repeat split; f_equal; field; auto using Qc_two_neq_0.
Qed.

(** On exact values, the "Alignment Offset" of the debug view is the
    manual offset times the host scale. *)
Lemma alignment_offset_exact (c : ConfigManager) (s : MagnifierState) :
  finiteInputs c s = true ->
  nstrict_eq (canvasScale s) (num 0) = false ->
  nstrict_eq (zoomFactor c) (num 0) = false ->
  let s' := calculateSourceRegion c s in
  alignmentOffsetX s' = nmul (offsetX c) (canvasScale s) /\
  alignmentOffsetY s' = nmul (offsetY c) (canvasScale s).
Proof.
  intros Hf Hsc Hz.
  destruct (finiteInputs_fields c s Hf)
    as (cx & cy & sc & hx & hy & ox & oy & gs & zf &
        Hx & Hy & Hs & Hhx & Hhy & Hox & Hoy & Hgs & Hzf).
  rewrite Hs in Hsc. rewrite Hzf in Hz.
  apply nstrict_eq_Fin_0_false in Hsc, Hz.
  destruct (calculateSourceRegion_closed_form c s cx cy sc hx hy ox oy gs zf)
    as (HX & HY & HW & HH); try done.
  destruct (calculateSourceRegion_frame c s) as (_ & _ & Hx' & Hy').
  cbv zeta. unfold alignmentOffsetX, alignmentOffsetY.
  rewrite HX, HY, HW, HH, Hx', Hy', Hx, Hy, Hox, Hoy, Hs, num_2.
  fin_arith. split; f_equal; field; auto using Qc_two_neq_0.
Qed.

Lemma nlt_0_nstrict_eq (a : number) :
  nlt (num 0) a = true -> nstrict_eq a (num 0) = false.
Proof.
  destruct a as [| |q]; [done|done|].
  rewrite num_0. cbn. unfold Qc_ltb. intros H. apply bool_decide_eq_true in H.
  apply Qc_eqb_false. intros ->. by apply Qclt_not_eq in H.
Qed.

Lemma nstrict_eq_refl_finite (a : number) :
  is_finite a = true -> nstrict_eq a a = true.
Proof. destruct a; [done|done|]. intros _. by apply nstrict_eq_Fin. Qed.

Lemma nmul_finite (a b : number) :
  is_finite a = true -> is_finite b = true -> is_finite (nmul a b) = true.
Proof. by destruct a, b. Qed.

(** X2. When the cursor, the host pan offset, the manual offset, the
    glass size and the zoom factor are small integers, the zoom factor
    divides the glass size and the host scale is a power of two between
    1/256 and 256, the centre of the sample rectangle is the cursor
    moved by manual offset x host scale canvas pixels: the "Alignment
    Offset" of the debug view is
    (offsetX * canvasScale, offsetY * canvasScale), whatever the host's
    pan offset. *)
Theorem alignment_offset_is_scaled_manual_offset (c : ConfigManager)
    (s : MagnifierState) :
  integerInputs c s = true ->
  powerOfTwoScale (canvasScale s) = true ->
  let s' := calculateSourceRegion c s in
  nstrict_eq (alignmentOffsetX s') (nmul (offsetX c) (canvasScale s)) = true /\
  nstrict_eq (alignmentOffsetY s') (nmul (offsetY c) (canvasScale s)) = true.
Proof.
  intros Hi Hp.
  destruct (powerOfTwoScale_positive _ Hp) as [Hf Hpos].
  destruct (integerInputs_finite c s Hi Hf) as [Hfin Hz].
  destruct (alignment_offset_exact c s Hfin (nlt_0_nstrict_eq _ Hpos) Hz)
    as [HX HY].
  cbv zeta. rewrite HX, HY.
  unfold finiteInputs in Hfin. repeat (apply andb_prop in Hfin as [Hfin ?]).
  split; apply nstrict_eq_refl_finite; by apply nmul_finite.
Qed.

(* ================================================================== *)
(** ** What the renderer records *)

Lemma render_records (host : Host) (m : MagnifyGlass) :
  renderCalls (render host m) =
  renderCalls m ++ [if texImage2DThrows host then None
                    else Some (drawCallOf host (state m))].
Proof. unfold render. by destruct (texImage2DThrows host). Qed.

(* ================================================================== *)
(** ** The HTML overlay *)


(** On exact values, the clone of the sample rectangle itself sits at
    (0, 0) and, scaled by the zoom factor, is glassSize wide and high. *)
Lemma clone_of_sample_rect_exact (c : ConfigManager) (s : MagnifierState)
    (k : ElementKind) :
  finiteInputs c s = true ->
  nstrict_eq (canvasScale s) (num 0) = false ->
  nstrict_eq (zoomFactor c) (num 0) = false ->
  let r := sampleRect (calculateSourceRegion c s) in
  let cl := cloneOf c r k r in
  cloneLeft cl = num 0 /\ cloneTop cl = num 0 /\
  nmul (cloneWidth cl) (cloneScale cl) = glassSize c /\
  nmul (cloneHeight cl) (cloneScale cl) = glassSize c.
Proof.
  intros Hf Hsc Hz.
  destruct (finiteInputs_fields c s Hf)
    as (cx & cy & sc & hx & hy & ox & oy & gs & zf &
        Hx & Hy & Hs & Hhx & Hhy & Hox & Hoy & Hgs & Hzf).
  rewrite Hs in Hsc. rewrite Hzf in Hz.
  apply nstrict_eq_Fin_0_false in Hsc, Hz.
  destruct (calculateSourceRegion_closed_form c s cx cy sc hx hy ox oy gs zf)
    as (HX & HY & HW & HH); try done.
  cbv zeta. unfold cloneOf, sampleRect.
  cbn [cloneLeft cloneTop cloneWidth cloneHeight cloneScale rx ry rwidth rheight].
  rewrite HX, HY, HW, HH, Hzf, Hgs, num_0.
  fin_arith. repeat split; f_equal; field; done.
Qed.

(** X5. After [calculateSourceRegion] on small integer inputs (cursor,
    pan offset, manual offset, glass size, and a zoom factor that divides
    the glass size) with a host scale that is a power of two between
    1/256 and 256, a widget whose canvas
    rectangle is the sample rectangle itself is cloned at (0, 0), and its
    clone, scaled by the zoom factor, is glassSize wide and high: the
    clone fills the glass exactly as the magnified image of that
    rectangle does. *)
Theorem clone_of_sample_rect_fills_glass (c : ConfigManager) (s : MagnifierState)
    (k : ElementKind) :
  integerInputs c s = true ->
  powerOfTwoScale (canvasScale s) = true ->
  let r := sampleRect (calculateSourceRegion c s) in
  let cl := cloneOf c r k r in
  nstrict_eq (cloneLeft cl) (num 0) = true /\
  nstrict_eq (cloneTop cl) (num 0) = true /\
  nstrict_eq (nmul (cloneWidth cl) (cloneScale cl)) (glassSize c) = true /\
  nstrict_eq (nmul (cloneHeight cl) (cloneScale cl)) (glassSize c) = true.
Proof.
  intros Hi Hp.
  destruct (powerOfTwoScale_positive _ Hp) as [Hf Hpos].
  destruct (integerInputs_finite c s Hi Hf) as [Hfin Hz].
  destruct (clone_of_sample_rect_exact c s k Hfin (nlt_0_nstrict_eq _ Hpos) Hz)
    as (HL & HT & HW & HH).
  cbv zeta. rewrite HL, HT, HW, HH.
  unfold finiteInputs in Hfin. repeat (apply andb_prop in Hfin as [Hfin ?]).
  repeat split; by apply nstrict_eq_refl_finite.
Qed.

(* ================================================================== *)
(** ** Frames and keys around activation *)

Lemma animationFrameCallback_inactive (host : Host) (m : MagnifyGlass) :
  active (state m) = false ->
  animationFrameCallback host m
  = set_state m (set_isRenderScheduled (state m) false).
Proof.
  intros Ha. unfold animationFrameCallback, notReady. by rewrite Ha.
Qed.

Lemma iter_callback_inactive (host : Host) (n : nat) : forall m,
  active (state m) = false ->
  let m' := Nat.iter n (animationFrameCallback host) m in
  active (state m') = false /\ renderCalls m' = renderCalls m /\
  ui m' = ui m /\ config m' = config m /\ localStorage m' = localStorage m /\
  animationFrameRequests m' = animationFrameRequests m /\
  sampleRect (state m') = sampleRect (state m) /\
  (0 < n -> isRenderScheduled (state m') = false)%nat.
Proof.
  induction n as [|n IH]; intros m Ha.
  - cbn. repeat split; try done. lia.
  - destruct (IH m Ha) as (Ha' & Hr & Hu & Hc & Hl & Hq & Hs & _).
    cbv zeta. rewrite Nat.iter_succ.
    rewrite animationFrameCallback_inactive by exact Ha'.
    cbn [state set_state active set_isRenderScheduled renderCalls ui config
         localStorage animationFrameRequests isRenderScheduled sampleRect
         sourceX sourceY sourceWidth sourceHeight].
    rewrite Ha', Hr, Hu, Hc, Hl, Hq. unfold sampleRect in Hs.
    repeat split; try done.
Qed.

(** X6. A frame tick that fires while the magnifier is inactive (the key
    was released after the request) draws nothing: no call to [render],
    the overlay and the sample rectangle untouched, no callback left
    waiting, and the pending flag cleared if a callback was waiting. *)
Theorem frame_after_deactivation_draws_nothing (host : Host) (m : MagnifyGlass) :
  active (state m) = false ->
  let m' := animationFrame host m in
  renderCalls m' = renderCalls m /\ ui m' = ui m /\
  sampleRect (state m') = sampleRect (state m) /\
  animationFrameRequests m' = 0%nat /\
  (0 < animationFrameRequests m -> isRenderScheduled (state m') = false)%nat.
Proof.
  intros Ha. unfold animationFrame.
  destruct (iter_callback_inactive host (animationFrameRequests m)
              (set_animationFrameRequests m 0) Ha)
    as (_ & Hr & Hu & _ & _ & Hq & Hs & Hf).
  cbv zeta. rewrite Hr, Hu, Hq, Hs. done.
Qed.

(** X7. When Alt is required and not held, no key press switches the
    magnifier on: an inactive magnifier is left exactly as it was. *)
Theorem no_activation_without_modifier (fts : Qc -> string) (host : Host)
    (e : KeyboardEvent) (m : MagnifyGlass) :
  active (state m) = false ->
  altRequired (config m) = true -> altKey e = false ->
  handleKeyDown fts host e m = m.
Proof.
  intros Ha Hr He. unfold handleKeyDown, activate.
  rewrite Hr, He. cbn [negb orb]. rewrite andb_false_r. by rewrite Ha.
Qed.

(** X8. Releasing the activation key (in either case), or Alt when Alt
    is required, always leaves the magnifier inactive, the glass hidden
    and the overlay container empty, and touches neither the
    configuration nor the store; releasing any other key changes
    nothing. *)
Theorem key_up_switches_off (e : KeyboardEvent) (m : MagnifyGlass) :
  overlayInvariant m ->
  (toLowerCase (key e) = activationKey (config m) \/
   (altRequired (config m) = true /\ key e = "Alt") ->
   let m' := handleKeyUp e m in
   active (state m') = false /\ glassDisplay (ui m') = DisplayNone /\
   htmlOverlayContainer (ui m') = [] /\
   config m' = config m /\ localStorage m' = localStorage m) /\
  (toLowerCase (key e) <> activationKey (config m) ->
   (altRequired (config m) = false \/ key e <> "Alt") ->
   handleKeyUp e m = m).
Proof.
  intros [Hd Hc]. split.
  - intros Hk. unfold handleKeyUp.
    assert (Hcond : String.eqb (toLowerCase (key e)) (activationKey (config m)) ||
                    altRequired (config m) && String.eqb (key e) "Alt" = true).
    { destruct Hk as [Hk | [Hr Hk]].
      - apply String.eqb_eq in Hk. by rewrite Hk.
      - apply String.eqb_eq in Hk. rewrite Hr, Hk. apply orb_true_r. }
    rewrite Hcond.
    assert (Hsd : (if altRequired (config m)
                   then String.eqb (key e) "Alt" ||
                        String.eqb (toLowerCase (key e)) (activationKey (config m))
                   else String.eqb (toLowerCase (key e)) (activationKey (config m)))
                  = true).
    { destruct (altRequired (config m)).
      - rewrite orb_comm. exact Hcond.
      - by rewrite orb_false_r in Hcond. }
    rewrite Hsd, andb_true_r.
    destruct (active (state m)) eqn:Ha; cbn; [done|].
    rewrite Ha. split; [done|]. split; [|by rewrite Hc].
    destruct (glassDisplay (ui m)); [done|].
    destruct Hd as [Hd _]. by specialize (Hd eq_refl).
  - intros Hk Ha. unfold handleKeyUp.
    apply String.eqb_neq in Hk. rewrite Hk. cbn [orb].
    destruct Ha as [-> | Ha]; [done|].
    apply String.eqb_neq in Ha. rewrite Ha. by rewrite andb_false_r.
Qed.

(* ================================================================== *)
(** ** Saving the offsets *)

(** A number with denominator 1 is the integer that is its numerator. *)
Lemma Fin_integer (q : Qc) : Qden (this q) = 1%positive -> Fin q = num (Qnum (this q)).
Proof.
  intros H. apply Fin_canon. destruct q as [[n d] Hc]. cbn in *. subst d.
  reflexivity.
Qed.

Lemma isSafeInteger_num (a : number) :
  isSafeInteger a = true ->
  exists z : Z, a = num z /\ (Z.abs z <= 9007199254740991)%Z.
Proof.
  destruct a as [| |q]; [done|done|]. unfold isSafeInteger. intros H.
  apply andb_prop in H as [Hd Hn].
  apply Pos.eqb_eq in Hd. apply Z.leb_le in Hn.
  exists (Qnum (this q)). split; [by apply Fin_integer|done].
Qed.

(** A safe integer is printed in decimal. *)
Lemma toString_num (fts : Qc -> string) (z : Z) :
  (Z.abs z <= 9007199254740991)%Z -> toString fts (num z) = pretty z.
Proof.
  intros H. apply Z.leb_le in H. unfold toString, num.
  change (Qden (this (Qc_of_Z z))) with 1%positive.
  change (Qnum (this (Qc_of_Z z))) with z.
  by rewrite H.
Qed.

(** What [saveOffsets] writes into a store that accepts the writes. *)
Lemma saveOffsets_writes (fts : Qc -> string) (c : ConfigManager) (st : Storage) :
  writable st = true ->
  let st' := saveOffsets fts c st in
  items st' !! offsetXKey = Some (toString fts (offsetX c)) /\
  items st' !! offsetYKey = Some (toString fts (offsetY c)) /\
  getItemThrows st' = getItemThrows st /\ setItemThrows st' = setItemThrows st.
Proof.
  unfold writable, saveOffsets, setItem. intros Hw.
  apply andb_prop in Hw as [HX HY].
  apply negb_true_iff in HX, HY.
  cbn [setItemThrows items]. rewrite HX. cbn [setItemThrows items]. rewrite HY.
  cbn [setItemThrows getItemThrows items].
  rewrite lookup_insert_ne by (apply not_eq_sym, offset_keys_differ).
  rewrite !lookup_insert_eq. done.
Qed.

(** X9. Offsets survive a session: offsets that are safe integers (of
    magnitude at most 2^53 - 1, printed in decimal with all their
    digits), saved into a store that accepts the writes and allows the
    reads, are loaded back unchanged by [loadSavedOffsets], into any
    configuration. *)
Theorem saved_offsets_load_back (fts : Qc -> string) (c c0 : ConfigManager)
    (st : Storage) :
  writable st = true ->
  getItemThrows st offsetXKey = false -> getItemThrows st offsetYKey = false ->
  isSafeInteger (offsetX c) = true -> isSafeInteger (offsetY c) = true ->
  let c' := loadSavedOffsets c0 (saveOffsets fts c st) in
  offsetX c' = offsetX c /\ offsetY c' = offsetY c.
Proof.
  intros Hw HgX HgY Hsx Hsy.
  destruct (isSafeInteger_num _ Hsx) as (zx & Hzx & Hbx).
  destruct (isSafeInteger_num _ Hsy) as (zy & Hzy & Hby).
  destruct (saveOffsets_writes fts c st Hw) as (HX & HY & Hg & _).
  rewrite Hzx, Hzy, !toString_num in * by done.
  cbv zeta. unfold loadSavedOffsets, getItem. rewrite Hg, HgX, HgY, HX, HY.
  cbn [offsetX offsetY set_offsets]. by rewrite !parseInt_pretty.
Qed.

(** X10. [saveOffsets] touches nothing but the two offset keys; and when
    the first write throws, the second is not attempted: the store is
    left exactly as it was. *)
Theorem saveOffsets_touches_only_its_keys (fts : Qc -> string)
    (c : ConfigManager) (st : Storage) :
  (forall k : string, k <> offsetXKey -> k <> offsetYKey ->
     items (saveOffsets fts c st) !! k = items st !! k) /\
  (setItemThrows st offsetXKey = true -> saveOffsets fts c st = st) /\
  (setItemThrows st offsetXKey = false -> setItemThrows st offsetYKey = true ->
   items (saveOffsets fts c st) !! offsetXKey = Some (toString fts (offsetX c)) /\
   items (saveOffsets fts c st) !! offsetYKey = items st !! offsetYKey).
Proof.
  unfold saveOffsets, setItem. split; [|split].
  - intros k HX HY.
    destruct (setItemThrows st offsetXKey); [done|].
    cbn [setItemThrows items].
    destruct (setItemThrows st offsetYKey); cbn [items];
      rewrite ?lookup_insert_ne by done; done.
  - by intros ->.
  - intros HX HY. rewrite HX. cbn [setItemThrows items]. rewrite HY. cbn [items].
    rewrite lookup_insert_eq.
    by rewrite lookup_insert_ne by apply offset_keys_differ.
Qed.

(** X11. While active, whenever a key press changes the manual offset
    (arrow keys, reset key) and the store accepts the writes, the store
    holds the new offsets afterwards; and so does it after
    [resetOffsets]. *)
Theorem offset_changes_are_persisted (fts : Qc -> string) (host : Host)
    (m : MagnifyGlass) :
  writable (localStorage m) = true ->
  (forall e : KeyboardEvent,
     active (state m) = true -> is_Some (adjustOffsets e (config m)) ->
     inSync fts (handleKeyDown fts host e m)) /\
  inSync fts (resetOffsets fts host m).
Proof.
  intros Hw. split.
  - intros e Ha [c Hc]. unfold handleKeyDown.
    rewrite activate_active by done. rewrite Ha, Hc.
    destruct (saveOffsets_writes fts c (localStorage m) Hw) as (HX & HY & _).
    unfold inSync, persistedOffsets.
    match goal with |- context [updateMagnifiedView host ?m1] =>
      destruct (updateMagnifiedView_frame host m1)
        as (-> & _ & _ & _ & _ & -> & _) end.
    cbn [config localStorage set_localStorage set_config].
    by rewrite HX, HY.
  - unfold resetOffsets, inSync, persistedOffsets.
    destruct (saveOffsets_writes fts (set_offsets (config m) (num 0) (num 0))
                (localStorage m) Hw) as (HX & HY & _).
    cbn [state set_localStorage set_config].
    destruct (active (state m)).
    + match goal with |- context [updateMagnifiedView host ?m1] =>
        destruct (updateMagnifiedView_frame host m1)
          as (-> & _ & _ & _ & _ & -> & _) end.
      cbn [config localStorage set_localStorage set_config].
      by rewrite HX, HY.
    + cbn [config localStorage set_localStorage set_config].
      by rewrite HX, HY.
Qed.

(* ================================================================== *)
(** ** Nudging there and back *)

Lemma handleKeyDown_active_config (fts : Qc -> string) (host : Host)
    (e : KeyboardEvent) (m : MagnifyGlass) :
  active (state m) = true ->
  let m' := handleKeyDown fts host e m in
  active (state m') = true /\
  config m' = match adjustOffsets e (config m) with
              | Some c => c
              | None => config m
              end.
Proof.
  intros Ha. unfold handleKeyDown.
  rewrite activate_active by done. rewrite Ha.
  destruct (adjustOffsets e (config m)) as [c|]; [|done].
  match goal with |- context [updateMagnifiedView host ?m1] =>
    destruct (updateMagnifiedView_frame host m1)
      as (-> & _ & _ & _ & _ & _ & _ & ->) end.
  done.
Qed.

(** X12. With offsets and a step that are small integers (the sums and
    differences are then exact), ArrowUp followed by ArrowDown (and
    ArrowLeft followed by ArrowRight), with shift held the same way,
    brings the manual offset back to what it was. *)
Theorem opposite_arrows_cancel (fts : Qc -> string) (host1 host2 : Host)
    (e1 e2 : KeyboardEvent) (m : MagnifyGlass) :
  active (state m) = true ->
  isSmallInt (offsetX (config m)) && isSmallInt (offsetY (config m)) &&
  isSmallInt (offsetStep (config m)) = true ->
  shiftKey e1 = shiftKey e2 ->
  (key e1 = "ArrowUp" /\ key e2 = "ArrowDown") \/
  (key e1 = "ArrowLeft" /\ key e2 = "ArrowRight") ->
  manualOffset (handleKeyDown fts host2 e2 (handleKeyDown fts host1 e1 m))
  = manualOffset m.
Proof.
  intros Ha Hf Hs Hk.
  destruct (handleKeyDown_active_config fts host1 e1 m Ha) as (Ha1 & Hc1).
  destruct (handleKeyDown_active_config fts host2 e2 _ Ha1) as (_ & Hc2).
  unfold manualOffset. rewrite Hc2, Hc1. clear Hc1 Hc2 Ha1.
  apply andb_prop in Hf as [Hf H3]. apply andb_prop in Hf as [H1 H2].
  destruct (offsetX (config m)) as [| |ox] eqn:Ex; try discriminate.
  destruct (offsetY (config m)) as [| |oy] eqn:Ey; try discriminate.
  destruct (offsetStep (config m)) as [| |st] eqn:Es; try discriminate.
  unfold adjustOffsets.
  destruct Hk as [[-> ->] | [-> ->]]; cbn [String.eqb Ascii.eqb Bool.eqb];
    cbn [offsetStep set_offsets offsetX offsetY]; rewrite Hs, Ex, Ey, Es;
    destruct (shiftKey e2); unfold num; fin_arith; f_equal; f_equal; ring.
Qed.

(* ================================================================== *)
(** ** The cursor in canvas pixels *)

Lemma nlt_Fin (p q : Qc) : nlt (Fin p) (Fin q) = true <-> p < q.
Proof. cbn. unfold Qc_ltb. apply bool_decide_eq_true. Qed.

Lemma nle_Fin (p q : Qc) : nle (Fin p) (Fin q) = true <-> p <= q.
Proof.
  unfold nle. cbn. unfold Qc_ltb, Qc_eqb. rewrite orb_true_iff, !bool_decide_eq_true.
  split.
  - intros [H | ->]; [by apply Qclt_le_weak|apply Qcle_refl].
  - intros H. destruct (Qcle_lt_or_eq _ _ H); auto.
Qed.

Lemma Qc_sub_nonneg (a l : Qc) : l <= a <-> 0 <= a - l.
Proof.
  rewrite (Qcplus_le_mono_r l a (- l)).
  replace (l + - l) with 0 by ring. done.
Qed.

Lemma Qc_sub_le (a l w : Qc) : a <= l + w <-> a - l <= w.
Proof.
  rewrite (Qcplus_le_mono_r a (l + w) (- l)).
  replace (l + w + - l) with w by ring. done.
Qed.

(** On finite values, the test of [updateInitialPosition] on an axis
    (against left and right) and that of [handleMouseMove] (on the
    coordinate relative to the canvas) agree, and hold exactly when the
    coordinate lies in the closed interval. *)
Lemma axis_tests_agree (a l w : Qc) :
  nge (Fin a) (Fin l) && nle (Fin a) (nadd (Fin l) (Fin w))
  = nge (nsub (Fin a) (Fin l)) (num 0) && nle (nsub (Fin a) (Fin l)) (Fin w).
Proof.
  rewrite num_0, nsub_Fin, nadd_Fin. unfold nge.
  apply Bool.eq_iff_eq_true.
  rewrite !andb_true_iff, !nle_Fin, <- Qc_sub_nonneg, <- Qc_sub_le. done.
Qed.

Lemma axis_inside (a l w : Qc) :
  nlt (Fin a) (Fin l) || ngt (Fin a) (nadd (Fin l) (Fin w)) = false ->
  0 <= a - l /\ a - l <= w.
Proof.
  rewrite nadd_Fin. unfold ngt. intros H.
  apply orb_false_elim in H as [H1 H2].
  rewrite <- Qc_sub_nonneg, <- Qc_sub_le. split; apply Qcnot_lt_le.
  - intros H. apply nlt_Fin in H. congruence.
  - intros H. apply nlt_Fin in H. congruence.
Qed.

Lemma scaled_within (p w cw : Qc) :
  0 <= p -> p <= w -> 0 < w -> 0 <= cw ->
  0 <= p * (cw / w) /\ p * (cw / w) <= cw.
Proof.
  intros Hp Hpw Hw Hcw.
  assert (Hw0 : w <> 0) by (intros ->; by apply Qclt_not_eq in Hw).
  split; apply (Qcmult_lt_0_le_reg_r _ _ w Hw).
  - replace (p * (cw / w) * w) with (p * cw) by (field; done).
    rewrite Qcmult_0_l. replace 0 with (0 * cw) by ring.
    by apply Qcmult_le_compat_r.
  - replace (p * (cw / w) * w) with (p * cw) by (field; done).
    rewrite (Qcmult_comm cw w). by apply Qcmult_le_compat_r.
Qed.

Lemma updateMagnifiedView_cursor (host : Host) (m : MagnifyGlass) :
  x (state (updateMagnifiedView host m)) = x (state m) /\
  y (state (updateMagnifiedView host m)) = y (state m).
Proof.
  rewrite updateMagnifiedView_cases.
  destruct (recomputed_frame host m) as (_ & _ & Hx & Hy).
  destruct (notReady m); [done|].
  destruct (isRenderScheduled (state m)); cbn; by rewrite Hx, Hy.
Qed.

(** On exact values, with the canvas laid out, a pointer move at a
    finite position that is not outside the canvas leaves the cursor
    within the backing store. *)
Lemma cursor_within_canvas_exact (host : Host) (e : MouseEvent)
    (m : MagnifyGlass) :
  active (state m) = true -> litegraphCanvas m = true ->
  canvasLaidOut host = true ->
  is_finite (clientX e) && is_finite (clientY e) = true ->
  outsideClientBounds (canvasRect host) e = false ->
  let m' := handleMouseMove host e m in
  nle (num 0) (x (state m')) = true /\
  nle (x (state m')) (canvasWidth host) = true /\
  nle (num 0) (y (state m')) = true /\
  nle (y (state m')) (canvasHeight host) = true.
Proof.
  intros Ha Hl Hc Hf Ho.
  unfold canvasLaidOut in Hc. repeat (apply andb_prop in Hc as [Hc ?]).
  apply andb_prop in Hf as [? ?].
  unfold handleMouseMove, toCanvasPixels, outsideClientBounds, rect_right,
    rect_bottom, ngt in *.
  cbn [state litegraphCanvas set_lastKnownMousePosition]. rewrite Ha, Hl.
  cbn [negb orb].
  destruct (clientX e) as [| |a]; try discriminate.
  destruct (clientY e) as [| |b]; try discriminate.
  destruct (rect_left (canvasRect host)) as [| |l]; try discriminate.
  destruct (rect_top (canvasRect host)) as [| |t]; try discriminate.
  destruct (rect_width (canvasRect host)) as [| |w]; try discriminate.
  destruct (rect_height (canvasRect host)) as [| |h]; try discriminate.
  destruct (canvasWidth host) as [| |cw]; try discriminate.
  destruct (canvasHeight host) as [| |ch]; try discriminate.
  rewrite <- !orb_assoc in Ho. rewrite orb_assoc in Ho.
  apply orb_false_elim in Ho as [Ho1 Ho2].
  apply axis_inside in Ho1 as [Hx0 Hx1]. apply axis_inside in Ho2 as [Hy0 Hy1].
  rewrite num_0 in *.
  repeat match goal with H : nlt _ _ = true |- _ => apply nlt_Fin in H end.
  repeat match goal with H : nle _ _ = true |- _ => apply nle_Fin in H end.
  rewrite !nsub_Fin.
  replace (nge (Fin (a - l)) (Fin 0)) with true
    by (symmetry; by apply nle_Fin).
  replace (nle (Fin (a - l)) (Fin w)) with true
    by (symmetry; by apply nle_Fin).
  replace (nge (Fin (b - t)) (Fin 0)) with true
    by (symmetry; by apply nle_Fin).
  replace (nle (Fin (b - t)) (Fin h)) with true
    by (symmetry; by apply nle_Fin).
  replace (nlt (Fin 0) (Fin w)) with true by (symmetry; by apply nlt_Fin).
  replace (nlt (Fin 0) (Fin h)) with true by (symmetry; by apply nlt_Fin).
  cbn [andb].
  assert (Hw0 : w <> 0).
  { intros ->. match goal with H : _ < 0 |- _ => by apply Qclt_not_eq in H end. }
  assert (Hh0 : h <> 0).
  { intros ->. match goal with H : _ < 0 |- _ => by apply Qclt_not_eq in H end. }
  rewrite !ndiv_Fin, !nmul_Fin by done.
  match goal with |- context [updateMagnifiedView host ?m1] =>
    destruct (updateMagnifiedView_cursor host m1) as [-> ->] end.
  cbn [state set_state set_ui x y set_cursor].
  destruct (scaled_within (a - l) w cw) as [? ?]; try done.
  destruct (scaled_within (b - t) h ch) as [? ?]; try done.
  rewrite !nle_Fin. done.
Qed.

(** X13. With the canvas laid out (client rectangle of positive size),
    pointer and client rectangle at small integer coordinates, and a
    backing store whose small integer size is a whole multiple of the
    client size (the scale factors and the products are then exact), a
    pointer move that is not outside the canvas, while the magnifier is
    active, leaves the cursor within the backing store:
    0 <= state.x <= canvas.width and 0 <= state.y <= canvas.height. *)
Theorem cursor_stays_within_canvas (host : Host) (e : MouseEvent)
    (m : MagnifyGlass) :
  active (state m) = true -> litegraphCanvas m = true ->
  canvasLaidOut host = true ->
  integerPointer (canvasRect host) e = true ->
  integerLayout host = true ->
  outsideClientBounds (canvasRect host) e = false ->
  let m' := handleMouseMove host e m in
  nle (num 0) (x (state m')) = true /\
  nle (x (state m')) (canvasWidth host) = true /\
  nle (num 0) (y (state m')) = true /\
  nle (y (state m')) (canvasHeight host) = true.
Proof.
  intros Ha Hl Hc Hi _ Ho.
  apply cursor_within_canvas_exact; try done.
  apply integerPointer_finite in Hi. unfold finitePointer in Hi.
  repeat (apply andb_prop in Hi as [Hi ?]).
  by apply andb_true_intro.
Qed.

Lemma set_lastKnownMousePosition_same (m : MagnifyGlass) :
  set_lastKnownMousePosition m
    (fst (lastKnownMousePosition m), snd (lastKnownMousePosition m)) = m.
Proof. destruct m as [? ? ? ? ? [? ?] ? ? ?]. reflexivity. Qed.

(** For finite coordinates, [updateInitialPosition] on an active
    magnifier is [handleMouseMove] for the last known position. *)
Lemma updateInitialPosition_as_move (host : Host) (m : MagnifyGlass) :
  active (state m) = true ->
  finitePointer (canvasRect host) (lastKnownEvent m) = true ->
  updateInitialPosition host m = handleMouseMove host (lastKnownEvent m) m.
Proof.
  intros Ha Hf. unfold updateInitialPosition, handleMouseMove, lastKnownEvent in *.
  cbn [clientX clientY] in *. rewrite set_lastKnownMousePosition_same, Ha.
  cbn [negb orb]. destruct (negb (litegraphCanvas m)); [done|].
  unfold finitePointer, rect_right, rect_bottom in *. cbn [clientX clientY] in Hf.
  repeat (apply andb_prop in Hf as [Hf ?]).
  destruct (fst (lastKnownMousePosition m)) as [| |a]; try discriminate.
  destruct (snd (lastKnownMousePosition m)) as [| |b]; try discriminate.
  destruct (rect_left (canvasRect host)) as [| |l]; try discriminate.
  destruct (rect_top (canvasRect host)) as [| |t]; try discriminate.
  destruct (rect_width (canvasRect host)) as [| |w]; try discriminate.
  destruct (rect_height (canvasRect host)) as [| |h]; try discriminate.
  rewrite <- !andb_assoc, (andb_assoc (nge (Fin a) (Fin l))), axis_tests_agree.
  rewrite (axis_tests_agree b t h), <- !andb_assoc. done.
Qed.


(** X14. Switching on snaps to the pointer: for a pointer and a client
    rectangle at small integer coordinates (the two forms of the test,
    against left and right and on the difference, then agree), what
    [updateInitialPosition] does on activation is what [handleMouseMove]
    does, on the active magnifier, for a pointer move at the last known
    mouse position. *)
Theorem initial_position_is_a_pointer_move (host : Host) (m : MagnifyGlass) :
  active (state m) = true ->
  integerPointer (canvasRect host) (lastKnownEvent m) = true ->
  updateInitialPosition host m = handleMouseMove host (lastKnownEvent m) m.
Proof.
  intros Ha Hi. apply updateInitialPosition_as_move; [done|].
  by apply integerPointer_finite.
Qed.

(* ================================================================== *)
(** ** The case of the activation key *)

Lemma noUpperCase_toLowerCase (s : string) : noUpperCase (toLowerCase s) = true.
Proof.
  induction s as [|c r IH]; [done|].
  cbn [toLowerCase noUpperCase]. rewrite IH, andb_true_r.
  destruct c as [[] [] [] [] [] [] [] []]; reflexivity.
Qed.

(** X15. The pressed key is lower-cased before it is compared with
    [config.activationKey], which is taken as it is: an activation key
    configured with an upper-case letter is matched by no key press, and
    an inactive magnifier then stays as it is whatever is pressed. *)
Theorem upper_case_activation_key_never_matches (fts : Qc -> string)
    (host : Host) (e : KeyboardEvent) (m : MagnifyGlass) :
  noUpperCase (activationKey (config m)) = false ->
  activate host e m = m /\
  (active (state m) = false -> handleKeyDown fts host e m = m).
Proof.
  intros Hu.
  assert (Hne : String.eqb (toLowerCase (key e)) (activationKey (config m)) = false).
  { apply String.eqb_neq. intros H.
    rewrite <- H, noUpperCase_toLowerCase in Hu. discriminate. }
  assert (Hact : activate host e m = m) by (unfold activate; by rewrite Hne).
  split; [exact Hact|].
  intros Ha. unfold handleKeyDown. by rewrite Hact, Ha.
Qed.

(* ================================================================== *)
(** ** Where the glass is put *)

Lemma twenty_pos : 0 < Qc_of_Z 20.
Proof. reflexivity. Qed.

Lemma Qc_not_lt_add (a : Qc) : ~ (a + Qc_of_Z 20 < a).
Proof.
  intros H. apply (Qcplus_lt_mono_l _ _ (- a)) in H.
  replace (- a + (a + Qc_of_Z 20)) with (Qc_of_Z 20) in H by ring.
  replace (- a + a) with 0 in H by ring.
  exact (Qclt_not_le _ _ H (Qclt_le_weak _ _ twenty_pos)).
Qed.

Lemma Qc_not_lt_sub (a g : Qc) : ~ (a < a - g - Qc_of_Z 20 + g).
Proof.
  intros H. apply (Qcplus_lt_mono_l _ _ (Qc_of_Z 20 - a)) in H.
  replace (Qc_of_Z 20 - a + a) with (Qc_of_Z 20) in H by ring.
  replace (Qc_of_Z 20 - a + (a - g - Qc_of_Z 20 + g)) with 0 in H by ring.
  exact (Qclt_not_le _ _ H (Qclt_le_weak _ _ twenty_pos)).
Qed.

Lemma nlt_after (a : Qc) : nlt (nadd (Fin a) (num 20)) (Fin a) = false.
Proof.
  unfold num. rewrite nadd_Fin. cbn. unfold Qc_ltb.
  apply bool_decide_eq_false, Qc_not_lt_add.
Qed.

Lemma nlt_before (a g : Qc) :
  nlt (Fin a) (nadd (nsub (nsub (Fin a) (Fin g)) (num 20)) (Fin g)) = false.
Proof.
  unfold num. rewrite !nsub_Fin, nadd_Fin. cbn. unfold Qc_ltb.
  apply bool_decide_eq_false, Qc_not_lt_sub.
Qed.

(** X16. Whatever the glass position setting (one of the eight, or
    anything else), for a glass size and a cursor that are small
    integers (the corner is then computed exactly), the square of side
    glassSize that [positionGlass] places does not contain the cursor:
    the glass never sits on the point being magnified (before
    [adjustForBoundaries] moves it). *)
Theorem glass_is_placed_off_the_cursor (glassSize : number)
    (glassPosition : string) (clientX clientY : number) :
  isSmallInt glassSize && isSmallInt clientX && isSmallInt clientY = true ->
  strictlyInside (glassPlacement glassSize glassPosition clientX clientY)
    glassSize clientX clientY = false.
Proof.
  intros Hf. apply andb_prop in Hf as [Hf Hy]. apply andb_prop in Hf as [Hg Hx].
  destruct glassSize as [| |g]; try discriminate.
  destruct clientX as [| |a]; try discriminate.
  destruct clientY as [| |b]; try discriminate.
  unfold glassPlacement, strictlyInside.
  repeat match goal with
         | |- context [String.eqb glassPosition ?s] =>
             destruct (String.eqb glassPosition s)
         end;
    cbn [fst snd];
    rewrite ?nlt_after, ?nlt_before, ?andb_false_r, ?andb_false_l; reflexivity.
Qed.

(* ================================================================== *)
(** ** The texture filter *)

Lemma FilterMode_eqb_refl (a : FilterMode) : FilterMode_eqb a a = true.
Proof. by destruct a. Qed.

Lemma updateTextureFiltering_sets (f : string) (r : TextureState) :
  gl r = true ->
  (currentFilteringMode r = Some (minFilter r) \/ currentFilteringMode r = None) ->
  (currentFilteringMode r = Some (magFilter r) \/ currentFilteringMode r = None) ->
  let r' := updateTextureFiltering f r in
  gl r' = true /\ currentFilteringMode r' = Some (modeOf f) /\
  minFilter r' = modeOf f /\ magFilter r' = modeOf f.
Proof.
  intros Hg Hmin Hmag. unfold updateTextureFiltering. rewrite Hg. cbn [negb].
  fold (modeOf f).
  destruct (currentFilteringMode r) as [cur|] eqn:E; [|done].
  destruct Hmin as [[= Hmin] | ?]; [|done]. destruct Hmag as [[= Hmag] | ?]; [|done].
  destruct cur, (modeOf f); cbn; rewrite ?E, <- ?Hmin, <- ?Hmag; done.
Qed.

(** X17. From [initialize] on, after any sequence of filter changes the
    two filters of the texture are both the one asked for last
    ("Nearest" is NEAREST, anything else LINEAR); asking again for the
    same setting changes nothing and makes no GL call. *)
Theorem texture_filters_follow_the_setting (f0 : string) (fs : list string)
    (f : string) :
  let r := fold_left (fun r f => updateTextureFiltering f r) (fs ++ [f])
             (initializedTexture f0) in
  minFilter r = modeOf f /\ magFilter r = modeOf f /\
  currentFilteringMode r = Some (modeOf f) /\
  updateTextureFiltering f r = r.
Proof.
  assert (Hinit : let r := initializedTexture f0 in
                  gl r = true /\ currentFilteringMode r = Some (minFilter r) /\
                  currentFilteringMode r = Some (magFilter r)).
  { unfold initializedTexture, updateTextureFiltering. cbn. done. }
  assert (Hall : forall l r,
             gl r = true /\ currentFilteringMode r = Some (minFilter r) /\
             currentFilteringMode r = Some (magFilter r) ->
             let r' := fold_left (fun r f => updateTextureFiltering f r) l r in
             gl r' = true /\ currentFilteringMode r' = Some (minFilter r') /\
             currentFilteringMode r' = Some (magFilter r')).
  { induction l as [|g l IH]; intros r (Hg & H1 & H2); [done|].
    cbn [fold_left]. apply IH.
    destruct (updateTextureFiltering_sets g r Hg) as (? & -> & -> & ->); auto. }
  cbv zeta. rewrite fold_left_app. cbn [fold_left].
  destruct (Hall fs _ Hinit) as (Hg & H1 & H2).
  destruct (updateTextureFiltering_sets f _ Hg) as (Hg' & Hc & Hmin & Hmag); auto.
  split; [done|]. split; [done|]. split; [done|].
  unfold updateTextureFiltering at 1. rewrite Hg', Hc. cbn [negb].
  fold (modeOf f). by rewrite FilterMode_eqb_refl.
Qed.

(* ================================================================== *)
(** ** Switching on away from the canvas; tracking the pointer *)


(** X19. Every pointer move is recorded as the last known position,
    active or not; and while inactive that is all a pointer move does. *)
Theorem pointer_is_always_tracked (host : Host) (e : MouseEvent)
    (m : MagnifyGlass) :
  lastKnownMousePosition (handleMouseMove host e m) = (clientX e, clientY e) /\
  (active (state m) = false ->
   handleMouseMove host e m
   = set_lastKnownMousePosition m (clientX e, clientY e)).
Proof.
  unfold handleMouseMove. split.
  - match goal with |- context [if ?b then _ else _] => destruct b end; [done|].
    match goal with |- context [if ?b then _ else _] => destruct b end; [|done].
    destruct (toCanvasPixels host _ _) as [px py].
    match goal with |- context [updateMagnifiedView host ?m1] =>
      destruct (updateMagnifiedView_frame host m1)
        as (_ & _ & _ & _ & -> & _) end.
    done.
  - intros Ha. cbn [state set_lastKnownMousePosition]. by rewrite Ha.
Qed.

(* ================================================================== *)
(** ** NaN in the transform *)

Lemma ndiv_NaN_r (a : number) : ndiv a NaN = NaN.
Proof. by destruct a. Qed.

Lemma nmul_NaN_r (a : number) : nmul a NaN = NaN.
Proof. by destruct a. Qed.

Lemma nmul_NaN_l (a : number) : nmul NaN a = NaN.
Proof. by destruct a. Qed.

Lemma nadd_NaN_l (a : number) : nadd NaN a = NaN.
Proof. by destruct a. Qed.

Lemma nadd_NaN_r (a : number) : nadd a NaN = NaN.
Proof. by destruct a. Qed.

Lemma nsub_NaN_r (a : number) : nsub a NaN = NaN.
Proof. by destruct a. Qed.

Lemma nsub_NaN_l (a : number) : nsub NaN a = NaN.
Proof. by destruct a. Qed.

Lemma ndiv_NaN_l (a : number) : ndiv NaN a = NaN.
Proof. by destruct a. Qed.

(** X20. The guard of [calculateSourceRegion] tests the host scale
    against 0 only: a host scale that is NaN passes it, and all four
    fields of the sample rectangle then become NaN, whatever the other
    inputs. *)
Theorem NaN_scale_poisons_sample_rect (c : ConfigManager) (s : MagnifierState) :
  canvasScale s = NaN ->
  sampleRect (calculateSourceRegion c s)
  = {| rx := NaN; ry := NaN; rwidth := NaN; rheight := NaN |}.
Proof.
  intros H. unfold calculateSourceRegion, sampleRect, set_source. rewrite H.
  cbn [nstrict_eq sourceX sourceY sourceWidth sourceHeight].
  by rewrite !ndiv_NaN_r, ?nadd_NaN_l, ?ndiv_NaN_l, ?nsub_NaN_r, ?nmul_NaN_r,
    ?nmul_NaN_l, ?nadd_NaN_l.
Qed.

(* ================================================================== *)
(** ** Stored text after the integer *)






(* ================================================================== *)
(** ** The further properties at work *)

Lemma alignment_offset_is_scaled_manual_offset_witness :
  let c := set_offsets defaultConfig (num 3) (num (-4)) in
  let s := set_transform scenarioState (num 2) (num 10) (num 20) in
  nstrict_eq (alignmentOffsetX (calculateSourceRegion c s))
             (nmul (offsetX c) (canvasScale s)) = true /\
  nstrict_eq (alignmentOffsetY (calculateSourceRegion c s))
             (nmul (offsetY c) (canvasScale s)) = true.
Proof.
  apply (alignment_offset_is_scaled_manual_offset
           (set_offsets defaultConfig (num 3) (num (-4)))
           (set_transform scenarioState (num 2) (num 10) (num 20)));
    vm_compute; reflexivity.
Defined.

Lemma clone_of_sample_rect_fills_glass_witness :
  let r := sampleRect (calculateSourceRegion defaultConfig scenarioState) in
  let cl := cloneOf defaultConfig r TextElement r in
  nstrict_eq (cloneLeft cl) (num 0) = true /\
  nstrict_eq (cloneTop cl) (num 0) = true /\
  nstrict_eq (nmul (cloneWidth cl) (cloneScale cl)) (glassSize defaultConfig) = true /\
  nstrict_eq (nmul (cloneHeight cl) (cloneScale cl)) (glassSize defaultConfig) = true.
Proof.
  apply (clone_of_sample_rect_fills_glass defaultConfig scenarioState TextElement);
    vm_compute; reflexivity.
Defined.

Lemma frame_after_deactivation_draws_nothing_witness :
  let m := handleKeyUp altX (run noFraction switchedOn twoPointerMoves) in
  let m' := animationFrame plainHost m in
  animationFrameRequests m = 1%nat /\
  renderCalls m' = renderCalls m /\ ui m' = ui m /\
  sampleRect (state m') = sampleRect (state m) /\
  animationFrameRequests m' = 0%nat /\
  (0 < animationFrameRequests m -> isRenderScheduled (state m') = false)%nat.
Proof.
  split; [vm_compute; reflexivity|].
  apply (frame_after_deactivation_draws_nothing plainHost
           (handleKeyUp altX (run noFraction switchedOn twoPointerMoves))).
  vm_compute; reflexivity.
Defined.

Lemma no_activation_without_modifier_witness :
  handleKeyDown noFraction plainHost plainX startUp = startUp.
Proof.
  apply (no_activation_without_modifier noFraction plainHost plainX startUp);
    vm_compute; reflexivity.
Defined.

Lemma switchedOn_overlayInvariant : overlayInvariant switchedOn.
Proof.
  split; [split; intros _; vm_compute; reflexivity|].
  intros H. vm_compute in H. discriminate.
Qed.

Lemma key_up_switches_off_witness :
  let m' := handleKeyUp altX switchedOn in
  active (state m') = false /\ glassDisplay (ui m') = DisplayNone /\
  htmlOverlayContainer (ui m') = [] /\
  config m' = config switchedOn /\ localStorage m' = localStorage switchedOn.
Proof.
  apply (proj1 (key_up_switches_off altX switchedOn switchedOn_overlayInvariant)).
  left. vm_compute. reflexivity.
Defined.

Lemma saved_offsets_load_back_witness :
  let c := set_offsets defaultConfig (num 7) (num (-3)) in
  let c' := loadSavedOffsets defaultConfig (saveOffsets noFraction c (storeOf [])) in
  offsetX c' = offsetX c /\ offsetY c' = offsetY c.
Proof.
  apply (saved_offsets_load_back noFraction
           (set_offsets defaultConfig (num 7) (num (-3))) defaultConfig (storeOf []));
    vm_compute; reflexivity.
Defined.

Lemma saveOffsets_touches_only_its_keys_witness :
  let st := {| items := {[ "other" := "kept" ]};
               getItemThrows := fun _ => false;
               setItemThrows := fun _ => true |} in
  saveOffsets noFraction defaultConfig st = st.
Proof.
  apply (saveOffsets_touches_only_its_keys noFraction defaultConfig
           {| items := {[ "other" := "kept" ]};
              getItemThrows := fun _ => false;
              setItemThrows := fun _ => true |}).
  reflexivity.
Defined.

Lemma offset_changes_are_persisted_witness :
  inSync noFraction (handleKeyDown noFraction plainHost shiftArrowUp switchedOn).
Proof.
  apply (proj1 (offset_changes_are_persisted noFraction plainHost switchedOn
                  switchedOn_writable) shiftArrowUp).
  - vm_compute. reflexivity.
  - eexists. vm_compute. reflexivity.
Defined.

Lemma opposite_arrows_cancel_witness :
  manualOffset (handleKeyDown noFraction plainHost shiftArrowDown
                  (handleKeyDown noFraction plainHost shiftArrowUp switchedOn))
  = manualOffset switchedOn.
Proof.
  apply (opposite_arrows_cancel noFraction plainHost plainHost
           shiftArrowUp shiftArrowDown switchedOn).
  - vm_compute. reflexivity.
  - vm_compute. reflexivity.
  - reflexivity.
  - left. split; reflexivity.
Defined.

Lemma cursor_stays_within_canvas_witness :
  let m' := handleMouseMove plainHost (pointerAt 100 100) switchedOn in
  nle (num 0) (x (state m')) = true /\
  nle (x (state m')) (canvasWidth plainHost) = true /\
  nle (num 0) (y (state m')) = true /\
  nle (y (state m')) (canvasHeight plainHost) = true.
Proof.
  apply (cursor_stays_within_canvas plainHost (pointerAt 100 100) switchedOn);
    vm_compute; reflexivity.
Defined.

Lemma initial_position_is_a_pointer_move_witness :
  updateInitialPosition plainHost switchedOn
  = handleMouseMove plainHost (lastKnownEvent switchedOn) switchedOn.
Proof.
  apply (initial_position_is_a_pointer_move plainHost switchedOn);
    vm_compute; reflexivity.
Defined.

Lemma upper_case_activation_key_never_matches_witness :
  let m := initialMagnifyGlass (set_activationKey defaultConfig "X") (storeOf []) in
  activate plainHost altX m = m /\
  (active (state m) = false -> handleKeyDown noFraction plainHost altX m = m).
Proof.
  apply (upper_case_activation_key_never_matches noFraction plainHost altX
           (initialMagnifyGlass (set_activationKey defaultConfig "X") (storeOf []))).
  vm_compute. reflexivity.
Defined.

Lemma glass_is_placed_off_the_cursor_witness :
  strictlyInside (glassPlacement (num 300) "Top-Left" (num 400) (num 300))
    (num 300) (num 400) (num 300) = false.
Proof.
  apply (glass_is_placed_off_the_cursor (num 300) "Top-Left" (num 400) (num 300)).
  reflexivity.
Defined.


Lemma pointer_is_always_tracked_witness :
  handleMouseMove plainHost (pointerAt 100 100) startUp
  = set_lastKnownMousePosition startUp
      (clientX (pointerAt 100 100), clientY (pointerAt 100 100)).
Proof.
  apply (pointer_is_always_tracked plainHost (pointerAt 100 100) startUp).
  vm_compute. reflexivity.
Defined.

Lemma NaN_scale_poisons_sample_rect_witness :
  sampleRect (calculateSourceRegion defaultConfig
                (set_transform scenarioState NaN (num 0) (num 0)))
  = {| rx := NaN; ry := NaN; rwidth := NaN; rheight := NaN |}.
Proof.
  apply (NaN_scale_poisons_sample_rect defaultConfig
           (set_transform scenarioState NaN (num 0) (num 0))).
  reflexivity.
Defined.

